(** * Superstore Analytics dashboard: loader, filter and aggregation pipeline

    A shallow embedding of [Final_Superstore_Berger_Velastegui_Villagomez.py].

    The script is a Streamlit page.  Its core is
    - [data_cleaning] / [data_loader]: find a CSV under the home directory,
      coerce column types, normalise the business columns;
    - the filter built from the sidebar widgets (a boolean mask over the
      loaded table);
    - the aggregates shown on the page (KPIs, colour-scale bound, pivot).

    Numbers are IEEE 754 binary64 values, modelled with the executable
    specification [SpecFloat] of the standard library; text is [string];
    a pandas column is a list of cells, a table a list of columns or of
    typed rows.  pandas behaves as in its releases before 3.0, where text
    columns have dtype object (the script tests [dtype == object]).  The
    parsers of pandas are parameters of the development; the memoisation
    of [st.cache_data] and the drawing of the charts are not modelled. *)

From Stdlib Require Import ZArith List String Ascii Bool Lia Permutation Sorted.
From Stdlib Require Import Floats.SpecFloat.
Import ListNotations.

Local Open Scope string_scope.
Local Open Scope list_scope.
Local Open Scope Z_scope.

(* ===================================================================== *)
(** * Part I. Definitions                                                  *)
(* ===================================================================== *)

(** ** binary64 numbers *)

Definition float := spec_float.

Definition prec : Z := 53.
Definition emax : Z := 1024.

Definition fadd : float -> float -> float := SFadd prec emax.
Definition fdiv : float -> float -> float := SFdiv prec emax.
Definition fleb : float -> float -> bool := SFleb.
Definition fltb : float -> float -> bool := SFltb.
Definition feqb : float -> float -> bool := SFeqb.
Definition fabs : float -> float := SFabs.

Definition is_nan (x : float) : bool :=
  match x with S754_nan => true | _ => false end.

(** [float(z)] for an integer [z]. *)
Definition of_Z (z : Z) : float := binary_normalize prec emax z 0 false.

Definition f_zero : float := S754_zero false.
Definition f_one : float := S754_finite false 4503599627370496 (-52).

(** The position of a number on the extended real line, as a triple
    compared lexicographically: the first component separates
    [-inf], the negative numbers, the zeros, the positive numbers and
    [+inf]; the other two order numbers of the same sign the way
    [SFcompare] does (exponent, then mantissa). *)
Definition fkey (x : float) : Z * Z * Z :=
  match x with
  | S754_nan => (3, 0, 0)
  | S754_infinity true => (-2, 0, 0)
  | S754_infinity false => (2, 0, 0)
  | S754_zero _ => (0, 0, 0)
  | S754_finite true m e => (-1, - e, - Zpos m)
  | S754_finite false m e => (1, e, Zpos m)
  end.

Definition key_le (a b : Z * Z * Z) : Prop :=
  let '(a1, a2, a3) := a in
  let '(b1, b2, b3) := b in
  a1 < b1 \/ (a1 = b1 /\ (a2 < b2 \/ (a2 = b2 /\ a3 <= b3))).

Definition key_lt (a b : Z * Z * Z) : Prop :=
  let '(a1, a2, a3) := a in
  let '(b1, b2, b3) := b in
  a1 < b1 \/ (a1 = b1 /\ (a2 < b2 \/ (a2 = b2 /\ a3 < b3))).

(** ** The loaded table as the dashboard reads it *)

(** One order of the dataset, with the columns the page uses. *)
Record Row := mkRow {
  Region : string;
  State : string;
  Category : string;
  SubCategory : string;
  Sales : float;
  Profit : float;
  Discount : float
}.

Definition DataFrame := list Row.

(** ** Filter engine (source lines 115-121) *)

(** [series.isin(values)] *)
Definition isin (col : list string) (values : list string) : list bool :=
  map (fun v => existsb (String.eqb v) values) col.

(** [series >= x] and [series <= x] *)
Definition ge_scalar (col : list float) (x : float) : list bool :=
  map (fun d => fleb x d) col.

Definition le_scalar (col : list float) (x : float) : list bool :=
  map (fun d => fleb d x) col.

(** [mask1 & mask2] on two aligned boolean series *)
Definition mask_and (m1 m2 : list bool) : list bool :=
  map (fun p => andb (fst p) (snd p)) (combine m1 m2).

(** [df[mask]]: the rows at which the mask holds, in table order *)
Definition boolean_index (df : DataFrame) (mask : list bool) : DataFrame :=
  map fst (filter snd (combine df mask)).

(** The values returned by the four sidebar widgets. *)
Record Selection := mkSelection {
  regiones : list string;
  categorias : list string;
  subcats : list string;
  discount_range : float * float
}.

Definition filter_mask (df_full : DataFrame) (sel : Selection) : list bool :=
  mask_and
    (mask_and
       (mask_and
          (mask_and (isin (map Region df_full) (regiones sel))
                    (isin (map Category df_full) (categorias sel)))
          (isin (map SubCategory df_full) (subcats sel)))
       (ge_scalar (map Discount df_full) (fst (discount_range sel))))
    (le_scalar (map Discount df_full) (snd (discount_range sel))).

(** [df = df_full[...].copy()] *)
Definition filtered_view (df_full : DataFrame) (sel : Selection) : DataFrame :=
  boolean_index df_full (filter_mask df_full sel).

(** The filter as the specification words it, row by row. *)
Definition row_passes (sel : Selection) (r : Row) : Prop :=
  In (Region r) (regiones sel) /\
  In (Category r) (categorias sel) /\
  In (SubCategory r) (subcats sel) /\
  fleb (fst (discount_range sel)) (Discount r) = true /\
  fleb (Discount r) (snd (discount_range sel)) = true.

Definition row_passesb (sel : Selection) (r : Row) : bool :=
  existsb (String.eqb (Region r)) (regiones sel) &&
  existsb (String.eqb (Category r)) (categorias sel) &&
  existsb (String.eqb (SubCategory r)) (subcats sel) &&
  fleb (fst (discount_range sel)) (Discount r) &&
  fleb (Discount r) (snd (discount_range sel)).

(** [l1] is [l2] with some elements left out, the others in their order. *)
Inductive subsequence {A : Type} : list A -> list A -> Prop :=
| subseq_nil : subsequence [] []
| subseq_skip : forall x l1 l2, subsequence l1 l2 -> subsequence l1 (x :: l2)
| subseq_keep : forall x l1 l2, subsequence l1 l2 -> subsequence (x :: l1) (x :: l2).

(** ** Sidebar defaults (source lines 85-111) *)

(** Distinct values in order of first appearance. *)
Fixpoint dedup {A : Type} (eqb : A -> A -> bool) (l : list A) : list A :=
  match l with
  | [] => []
  | x :: l' => x :: filter (fun y => negb (eqb y x)) (dedup eqb l')
  end.

Fixpoint insert_by {A : Type} (leb : A -> A -> bool) (x : A) (l : list A) : list A :=
  match l with
  | [] => [x]
  | y :: l' => if leb x y then x :: l else y :: insert_by leb x l'
  end.

(** Ascending stable sort for the order [leb]. *)
Definition sort_by {A : Type} (leb : A -> A -> bool) (l : list A) : list A :=
  fold_right (insert_by leb) [] l.

(** [series.unique()] on a text column *)
Definition unique (l : list string) : list string := dedup String.eqb l.

(** [sorted(values)] on text *)
Definition sorted (l : list string) : list string := sort_by String.leb l.

(** pandas reductions skip missing values. *)
Definition dropna (c : list float) : list float :=
  filter (fun x => negb (is_nan x)) c.

(** [series.min()] and [series.max()]; NaN when no value is left *)
Definition col_min (c : list float) : float :=
  match dropna c with
  | [] => S754_nan
  | x :: xs => fold_left (fun acc v => if fltb v acc then v else acc) xs x
  end.

Definition col_max (c : list float) : float :=
  match dropna c with
  | [] => S754_nan
  | x :: xs => fold_left (fun acc v => if fltb acc v then v else acc) xs x
  end.

(** What the widgets return on the first run: every option selected and
    the slider at [(dmin, dmax)]. *)
Definition default_selection (df_full : DataFrame) : Selection :=
  {| regiones := sorted (unique (map Region df_full));
     categorias := sorted (unique (map Category df_full));
     subcats := sorted (unique (map SubCategory df_full));
     discount_range := (col_min (map Discount df_full),
                        col_max (map Discount df_full)) |}.

(** ** Aggregation layer: KPIs and colour scale (source lines 133-149) *)

(** [series.sum()], accumulated in row order *)
Definition col_sum (c : list float) : float :=
  fold_left fadd (dropna c) f_zero.

Definition col_count (c : list float) : nat := List.length (dropna c).

(** [series.mean()] *)
Definition col_mean (c : list float) : float :=
  fdiv (col_sum c) (of_Z (Z.of_nat (col_count c))).

(** Truth value of a number in [x if total_sales else y]: nonzero. *)
Definition truthy (x : float) : bool := negb (feqb x f_zero).

(** [a / b], with the division by zero made visible as [None]. *)
Definition true_divide (a b : float) : option float :=
  if feqb b f_zero then None else Some (fdiv a b).

Record KPIs := mkKPIs {
  total_sales : float;
  total_profit : float;
  avg_discount : float;
  profit_margin : float
}.

Definition kpis (df : DataFrame) : option KPIs :=
  let total_sales := col_sum (map Sales df) in
  let total_profit := col_sum (map Profit df) in
  let avg_discount := col_mean (map Discount df) in
  match (if truthy total_sales
         then true_divide total_profit total_sales
         else Some f_zero) with
  | Some profit_margin =>
      Some (mkKPIs total_sales total_profit avg_discount profit_margin)
  | None => None
  end.

(** Python's [max(a, b)]: [b] when [b > a], else [a]. *)
Definition py_max (a b : float) : float := if fltb a b then b else a.

Definition max_abs (df : DataFrame) : float :=
  let max_abs := py_max (fabs (col_min (map Profit df)))
                        (fabs (col_max (map Profit df))) in
  if feqb max_abs f_zero then f_one else max_abs.

(** Image of [fabs] on positions. *)
Definition kabs (k : Z * Z * Z) : Z * Z * Z :=
  let '(a, b, c) := k in if a <? 0 then (- a, - b, - c) else k.

Definition no_nan (c : list float) : Prop := Forall (fun x => is_nan x = false) c.

(** ** Aggregation layer: grouped sums (source lines 152-158) *)

(** [df.groupby(key)["Profit"].sum()]: one entry per value of the key,
    keys ascending. *)
Definition groupby_sum (key : Row -> string) (df : DataFrame) : list (string * float) :=
  map (fun k => (k, col_sum (map Profit (filter (fun r => String.eqb (key r) k) df))))
      (sorted (unique (map key df))).

(** Ascending order used by [sort_values]: missing values last. *)
Definition na_last_leb (a b : float) : bool :=
  if is_nan b then true else if is_nan a then false else fleb a b.

(** [grouped.sort_values("Profit")] *)
Definition sort_by_profit (g : list (string * float)) : list (string * float) :=
  sort_by (fun a b => na_last_leb (snd a) (snd b)) g.

(** Descending order of [sort_values(..., ascending=False)]: missing
    values last as well. *)
Definition na_last_geb (a b : float) : bool :=
  if is_nan b then true else if is_nan a then false else fleb b a.

(** Tab 1, lines 187-191:
    [df.groupby("Category").agg(Sales=sum, Profit=sum).sort_values("Sales", ascending=False)] *)
Definition sales_cat (df : DataFrame) : list (string * (float * float)) :=
  sort_by (fun a b => na_last_geb (fst (snd a)) (fst (snd b)))
    (map (fun k =>
            let g := filter (fun r => String.eqb (Category r) k) df in
            (k, (col_sum (map Sales g), col_sum (map Profit g))))
         (sorted (unique (map Category df)))).

(** Tab 1, lines 214-218 *)
Definition profit_cat (df : DataFrame) : list (string * float) :=
  sort_by (fun a b => na_last_geb (snd a) (snd b)) (groupby_sum Category df).

(** [table.iloc[0]]: the first row, [None] standing for IndexError *)
Definition iloc0 {A : Type} (l : list A) : option A := hd_error l.

(** ** Aggregation layer: state x region pivot (source lines 367-381) *)

Definition pair_eqb (a b : string * string) : bool :=
  String.eqb (fst a) (fst b) && String.eqb (snd a) (snd b).

Definition pair_leb (a b : string * string) : bool :=
  match String.compare (fst a) (fst b) with
  | Lt => true
  | Gt => false
  | Eq => String.leb (snd a) (snd b)
  end.

(** [df.groupby(["State", "Region"])["Profit"].sum()]: one entry per
    (state, region) pair present in the view, keys ascending. *)
Definition groupby_state_region (df : DataFrame) : list ((string * string) * float) :=
  map (fun k => (k, col_sum (map Profit
                      (filter (fun r => pair_eqb (State r, Region r) k) df))))
      (sort_by pair_leb (dedup pair_eqb (map (fun r => (State r, Region r)) df))).

Fixpoint lookup_key (k : string * string) (s : list ((string * string) * float))
  : option float :=
  match s with
  | [] => None
  | (k', v) :: s' => if pair_eqb k' k then Some v else lookup_key k s'
  end.

(** Tab 3, lines 341-344: sales, profit and mean discount of every
    (category, sub-category) pair. *)
Definition tree_df (df : DataFrame)
  : list ((string * string) * (float * float * float)) :=
  map (fun k =>
         let g := filter (fun r => pair_eqb (Category r, SubCategory r) k) df in
         (k, (col_sum (map Sales g), col_sum (map Profit g),
              col_mean (map Discount g))))
      (sort_by pair_leb
         (dedup pair_eqb (map (fun r => (Category r, SubCategory r)) df))).

(** A table with labelled rows and columns: the column labels and, row by
    row, the row label and the cells under each column. *)
Record Table := mkTable {
  columns : list string;
  rows : list (string * list float)
}.

(** [series.unstack()]: inner key level (region) to columns; a pair that
    does not occur gives a missing cell. *)
Definition unstack (s : list ((string * string) * float)) : Table :=
  let cols := sorted (unique (map (fun e => snd (fst e)) s)) in
  let idx := sorted (unique (map (fun e => fst (fst e)) s)) in
  mkTable cols
    (map (fun st =>
            (st, map (fun rg => match lookup_key (st, rg) s with
                                | Some v => v
                                | None => S754_nan
                                end) cols))
         idx).

Definition fillna0 (x : float) : float := if is_nan x then f_zero else x.

(** [table.fillna(0)] *)
Definition table_fillna0 (t : Table) : Table :=
  mkTable (columns t) (map (fun r => (fst r, map fillna0 (snd r))) (rows t)).

(** [table.sum(axis=1)] *)
Definition row_sums (t : Table) : list float :=
  map (fun r => col_sum (snd r)) (rows t).

Fixpoint index_of (name : string) (cols : list string) : option nat :=
  match cols with
  | [] => None
  | c :: cols' => if String.eqb c name then Some O
                  else option_map S (index_of name cols')
  end.

Fixpoint replace_nth {A : Type} (i : nat) (v : A) (l : list A) : list A :=
  match l, i with
  | [], _ => []
  | _ :: l', O => v :: l'
  | x :: l', S i' => x :: replace_nth i' v l'
  end.

Fixpoint remove_nth {A : Type} (i : nat) (l : list A) : list A :=
  match l, i with
  | [], _ => []
  | _ :: l', O => l'
  | x :: l', S i' => x :: remove_nth i' l'
  end.

(** [table[name] = values]: overwrites the column of that label when there
    is one, else appends a new last column. *)
Definition set_column (name : string) (vals : list float) (t : Table) : Table :=
  match index_of name (columns t) with
  | Some i =>
      mkTable (columns t)
        (map (fun p => (fst (fst p), replace_nth i (snd p) (snd (fst p))))
             (combine (rows t) vals))
  | None =>
      mkTable (columns t ++ [name])
        (map (fun p => (fst (fst p), snd (fst p) ++ [snd p]))
             (combine (rows t) vals))
  end.

Definition cell_at (i : nat) (r : string * list float) : float :=
  nth i (snd r) S754_nan.

(** [table.sort_values(name)]; [None] stands for KeyError.  Rows of equal
    value keep their order here; pandas' default sort leaves their order
    open, and nothing below depends on it. *)
Definition sort_values (name : string) (t : Table) : option Table :=
  match index_of name (columns t) with
  | Some i =>
      Some (mkTable (columns t)
              (sort_by (fun r1 r2 => na_last_leb (cell_at i r1) (cell_at i r2))
                       (rows t)))
  | None => None
  end.

(** [table.drop(columns=[name])]; [None] stands for KeyError. *)
Definition drop_column (name : string) (t : Table) : option Table :=
  match index_of name (columns t) with
  | Some i =>
      Some (mkTable (remove_nth i (columns t))
              (map (fun r => (fst r, remove_nth i (snd r))) (rows t)))
  | None => None
  end.

Definition MAX_STATES : nat := 25.

(** [table.head(n)] *)
Definition head (n : nat) (t : Table) : Table :=
  mkTable (columns t) (firstn n (rows t)).

Definition pivot (df : DataFrame) : option Table :=
  let pivot := table_fillna0 (unstack (groupby_state_region df)) in
  let pivot := set_column "Total" (row_sums pivot) pivot in
  match sort_values "Total" pivot with
  | None => None
  | Some pivot =>
      match drop_column "Total" pivot with
      | None => None
      | Some pivot =>
          Some (if Nat.ltb MAX_STATES (List.length (rows pivot))
                then head MAX_STATES pivot
                else pivot)
      end
  end.

(** ** The pivot as the specification words it *)

Definition state_region (r : Row) : string * string := (State r, Region r).

(** The rows of the view of one (state, region) pair. *)
Definition group_rows (df : DataFrame) (st rg : string) : DataFrame :=
  filter (fun r => pair_eqb (State r, Region r) (st, rg)) df.

(** The cell of a state and a region: the sum of the pair's profits, 0
    when the pair does not occur (or when the sum is not a number). *)
Definition pivot_cell (df : DataFrame) (st rg : string) : float :=
  match group_rows df st rg with
  | [] => f_zero
  | g => fillna0 (col_sum (map Profit g))
  end.

Definition row_total (r : string * list float) : float := col_sum (snd r).

Definition total_leb (r1 r2 : string * list float) : bool :=
  na_last_leb (row_total r1) (row_total r2).

(** The column labels of the unstacked table. *)
Definition pivot_columns (df : DataFrame) : list string :=
  sorted (unique (map (fun e => snd (fst e)) (groupby_state_region df))).

(** The row labels of the unstacked table. *)
Definition pivot_index (df : DataFrame) : list string :=
  sorted (unique (map (fun e => fst (fst e)) (groupby_state_region df))).

(** All states, one row each, worst row total first. *)
Definition all_pivot_rows (df : DataFrame) : list (string * list float) :=
  sort_by total_leb
    (map (fun st => (st, map (pivot_cell df st) (pivot_columns df)))
         (pivot_index df)).

(** ** One render pass of the page (source lines 115-166, 367-401) *)

(** What a run leaves behind: the Streamlit elements it emitted, in order.
    [Aggregated d] is a ghost entry recording that an aggregation of the
    aggregation layer was evaluated on the table [d]. *)
Inductive event :=
| Warning (msg : string)
| Title (text : string)
| Markdown (text : string)
| Metric (label : string) (value : float)
| InfoBox (region : string) (region_profit : float) (sub : string) (sub_profit : float)
| SalesBars (data : list (string * (float * float))) (range_abs : float)
| ProfitBars (data : list (string * float)) (range_abs : float)
| Treemap (data : list ((string * string) * (float * float * float)))
    (range_abs : float)
| Heatmap (t : Table) (range_abs : float)
| Aggregated (d : DataFrame).

(** How a run ends: normally, by [st.stop()], or by an uncaught exception. *)
Inductive outcome (A : Type) :=
| Done (a : A)
| Stopped
| Raised (exn : string).

Arguments Done {A} a.
Arguments Stopped {A}.
Arguments Raised {A} exn.

Definition App (A : Type) : Type := list event -> outcome A * list event.

Definition ret {A : Type} (a : A) : App A := fun log => (Done a, log).

Definition bind {A B : Type} (m : App A) (k : A -> App B) : App B :=
  fun log =>
    match m log with
    | (Done a, log') => k a log'
    | (Stopped, log') => (Stopped, log')
    | (Raised e, log') => (Raised e, log')
    end.

Declare Scope app_scope.
Delimit Scope app_scope with app.
Notation "x <- m ;; k" := (bind m (fun x => k))
  (at level 100, m at next level, right associativity) : app_scope.
Notation "m ;; k" := (bind m (fun _ => k))
  (at level 100, right associativity) : app_scope.

Definition emit (e : event) : App unit := fun log => (Done tt, log ++ [e]).

Definition st_stop {A : Type} : App A := fun log => (Stopped, log).

(** An aggregation evaluated on [d]; [None] is the exception [exn]. *)
Definition aggregate {A : Type} (d : DataFrame) (result : option A) (exn : string)
  : App A :=
  fun log =>
    match result with
    | Some a => (Done a, log ++ [Aggregated d])
    | None => (Raised exn, log ++ [Aggregated d])
    end.

Definition warning_text : string :=
  "No hay datos para los filtros seleccionados. Ajusta los filtros en la barra lateral.".

Definition title_text : string :=
  "Superstore Analytics: ¿Dónde los descuentos destruyen la rentabilidad?".

(** [df.empty] *)
Definition empty (df : DataFrame) : bool :=
  match df with [] => true | _ => false end.

Local Open Scope app_scope.

(** Everything after the guard: lines 128-166 and the aggregations behind
    the charts of tabs 1 and 3.  The charts of tab 2 plot the rows of [df]
    as they are and are left out. *)
Definition dashboard (df : DataFrame) : App unit :=
  emit (Title title_text) ;;
  emit (Markdown "---") ;;
  k <- aggregate df (kpis df) "ZeroDivisionError" ;;
  emit (Metric "Total Sales" (total_sales k)) ;;
  emit (Metric "Total Profit" (total_profit k)) ;;
  emit (Metric "Avg Discount" (avg_discount k)) ;;
  emit (Metric "Profit Margin" (profit_margin k)) ;;
  emit (Markdown "---") ;;
  max_abs <- aggregate df (Some (max_abs df)) "" ;;
  worst_region <- aggregate df (iloc0 (sort_by_profit (groupby_sum Region df)))
                    "IndexError" ;;
  worst_sub <- aggregate df (iloc0 (sort_by_profit (groupby_sum SubCategory df)))
                 "IndexError" ;;
  emit (InfoBox (fst worst_region) (snd worst_region) (fst worst_sub) (snd worst_sub)) ;;
  sales_cat <- aggregate df (Some (sales_cat df)) "" ;;
  emit (SalesBars sales_cat max_abs) ;;
  profit_cat <- aggregate df (Some (profit_cat df)) "" ;;
  emit (ProfitBars profit_cat max_abs) ;;
  tree_df <- aggregate df (Some (tree_df df)) "" ;;
  emit (Treemap tree_df max_abs) ;;
  pivot <- aggregate df (pivot df) "KeyError" ;;
  emit (Heatmap pivot max_abs).

(** Lines 115-125 followed by the rest of the script. *)
Definition render_pass (df_full : DataFrame) (sel : Selection) : App unit :=
  let df := filtered_view df_full sel in
  (if empty df
   then emit (Warning warning_text) ;; st_stop
   else ret tt) ;;
  dashboard df.

Local Close Scope app_scope.

(** The log of a run started on an empty page. *)
Definition run {A : Type} (m : App A) : outcome A * list event := m [].

(** [m] only ever aggregates the table [df]. *)
Definition aggregates_only {A : Type} (df : DataFrame) (m : App A) : Prop :=
  forall log, exists ext,
    snd (m log) = log ++ ext /\
    forall d, In (Aggregated d) ext -> d = df.

(** ** Raw tables: what [pd.read_csv] returns *)

(** One value of a pandas column. *)
Inductive cell :=
| NA                    (* NaN or None: a missing value *)
| NaT                   (* the missing date *)
| Str (s : string)
| Int (z : Z)
| Flt (x : float)
| Bool (b : bool)
| Timestamp (t : Z).

Inductive dtype := object | int64 | float64 | bool_ | datetime64.

Record Series := mkSeries { dtype_of : dtype; values : list cell }.

(** A table as pandas keeps it: its columns in order, under distinct
    labels ([read_csv] renames repeated headers). *)
Definition RawFrame := list (string * Series).

(** The exceptions of class [Exception] that pandas raises. *)
Inductive exn := Exn (kind : string) (message : string).

Definition KeyError (label : string) : exn := Exn "KeyError" label.
Definition AttributeError : exn :=
  Exn "AttributeError" "Can only use .str accessor with string values!".

Declare Scope exn_scope.
Delimit Scope exn_scope with exn.
Notation "x <- m ;; k" :=
  (match m with inl e => inl e | inr x => k end)
  (at level 100, m at next level, right associativity) : exn_scope.

(** [try: body  except Exception: handler] *)
Definition try_except {A : Type} (body : exn + A) (handler : exn + A) : exn + A :=
  match body with
  | inl _ => handler
  | inr a => inr a
  end.

(** The pandas converters the script calls; their parsing rules are
    pandas' own and are left open here. *)
Class Pandas := {
  (** [pd.to_numeric(s)] *)
  to_numeric : Series -> exn + Series;
  (** [pd.to_datetime(s)] *)
  to_datetime : Series -> exn + Series;
  (** [pd.to_numeric(s, errors="coerce")] *)
  to_numeric_coerce : Series -> Series;
  (** [pd.to_datetime(s, errors="coerce")] *)
  to_datetime_coerce : Series -> Series;
  (** [str(x)] for a number, a truth value or a date *)
  str_of_value : cell -> string
}.

Definition dtype_eqb (a b : dtype) : bool :=
  match a, b with
  | object, object | int64, int64 | float64, float64
  | bool_, bool_ | datetime64, datetime64 => true
  | _, _ => false
  end.

(** [pd.isna(c)] *)
Definition is_missing (c : cell) : bool :=
  match c with
  | NA | NaT => true
  | Flt x => is_nan x
  | _ => false
  end.

Definition is_text (c : cell) : bool :=
  match c with Str _ => true | _ => false end.

(** The number a numeric cell stands for. *)
Definition numeric_value (c : cell) : option float :=
  match c with
  | Int z => Some (of_Z z)
  | Flt x => Some x
  | _ => None
  end.

(** ** Table access *)

(** [label in df.columns] *)
Definition has_column (label : string) (df : RawFrame) : bool :=
  existsb (fun c => String.eqb (fst c) label) df.

(** [df[label]] *)
Fixpoint getitem (label : string) (df : RawFrame) : exn + Series :=
  match df with
  | [] => inl (KeyError label)
  | (l, s) :: df' => if String.eqb l label then inr s else getitem label df'
  end.

(** [df[label] = s]: replaces the column of that label, or appends one. *)
Fixpoint setitem (label : string) (s : Series) (df : RawFrame) : RawFrame :=
  match df with
  | [] => [(label, s)]
  | (l, s0) :: df' =>
      if String.eqb l label then (l, s) :: df'
      else (l, s0) :: setitem label s df'
  end.

(** ** [data_cleaning] (source lines 31-50) *)

Definition cell_eqb (a b : cell) : bool :=
  match a, b with
  | NA, NA | NaT, NaT => true
  | Str s, Str t => String.eqb s t
  | Int x, Int y => Z.eqb x y
  | Flt x, Flt y => feqb x y || (is_nan x && is_nan y)
  | Bool x, Bool y => Bool.eqb x y
  | Timestamp x, Timestamp y => Z.eqb x y
  | _, _ => false
  end.

Fixpoint row_eqb (r1 r2 : list cell) : bool :=
  match r1, r2 with
  | [], [] => true
  | a :: r1', b :: r2' => cell_eqb a b && row_eqb r1' r2'
  | _, _ => false
  end.

Definition nrows (df : RawFrame) : nat :=
  match df with
  | [] => O
  | (_, s) :: _ => List.length (values s)
  end.

Definition row_at (df : RawFrame) (i : nat) : list cell :=
  map (fun c => nth i (values (snd c)) NA) df.

(** [df.duplicated()]: the rows equal to an earlier row *)
Definition duplicated (df : RawFrame) : list bool :=
  map (fun i => existsb (fun j => row_eqb (row_at df j) (row_at df i)) (seq 0 i))
      (seq 0 (nrows df)).

Definition keep_where {A : Type} (mask : list bool) (l : list A) : list A :=
  map fst (filter snd (combine l mask)).

(** [df.drop_duplicates()] *)
Definition drop_duplicates (df : RawFrame) : RawFrame :=
  let keep := map negb (duplicated df) in
  map (fun c => (fst c, mkSeries (dtype_of (snd c)) (keep_where keep (values (snd c)))))
      df.

Definition is_currency_mark (a : ascii) : bool :=
  Ascii.eqb a "$"%char || Ascii.eqb a ","%char.

(** [re.sub('[$,]', '', s)] *)
Fixpoint strip_currency (s : string) : string :=
  match s with
  | EmptyString => EmptyString
  | String a s' => if is_currency_mark a then strip_currency s'
                   else String a (strip_currency s')
  end.

(** [s.str.replace('[$,]', '', regex=True)].  The [.str] accessor exists
    on a column that holds text or nothing at all; non-text values give
    missing results. *)
Definition str_replace_currency (s : Series) : exn + Series :=
  if existsb is_text (values s) || forallb is_missing (values s)
  then inr (mkSeries object
              (map (fun c => match c with
                             | Str x => Str (strip_currency x)
                             | _ => NA
                             end) (values s)))
  else inl AttributeError.

Local Open Scope exn_scope.

(** The body of the loop for one column: the value the column has
    afterwards (itself when nothing was assigned). *)
Definition coerce_column `{Pandas} (s : Series) : exn + Series :=
  if dtype_eqb (dtype_of s) object then
    try_except
      (stripped <- str_replace_currency s ;; to_numeric stripped)
      (try_except (to_datetime s) (inr s))
  else inr s.

Definition clean_column `{Pandas} (df : exn + RawFrame) (col : string)
  : exn + RawFrame :=
  df <- df ;;
  s <- getitem col df ;;
  s' <- coerce_column s ;;
  inr (setitem col s' df).

Definition data_cleaning `{Pandas} (df : RawFrame) : exn + RawFrame :=
  let df := drop_duplicates df in
  fold_left clean_column (map fst df) (inr df).

(** The column that [data_cleaning] leaves in place of [s]. *)
Definition coerced `{Pandas} (s : Series) : Series :=
  match coerce_column s with
  | inr s' => s'
  | inl _ => s
  end.

Local Close Scope exn_scope.

(** ** [data_loader] (source lines 54-77) *)

(** [str(x)] as [astype(str)] applies it to a value: a missing number
    prints as the text nan. *)
Definition py_str `{Pandas} (c : cell) : string :=
  match c with
  | NA => "nan"
  | NaT => "NaT"
  | Str s => s
  | Flt x => if is_nan x then "nan" else str_of_value c
  | other => str_of_value other
  end.

(** [s.astype(str)] *)
Definition astype_str `{Pandas} (s : Series) : Series :=
  mkSeries object (map (fun c => Str (py_str c)) (values s)).

(** [s.fillna(v)] *)
Definition fillna (v : cell) (s : Series) : Series :=
  mkSeries (dtype_of s) (map (fun c => if is_missing c then v else c) (values s)).

(** Line 68: [pd.to_numeric(df[col], errors="coerce").fillna(0)] *)
Definition normalize_numeric `{Pandas} (s : Series) : Series :=
  fillna (Flt f_zero) (to_numeric_coerce s).

(** Line 72: [df[col].astype(str).fillna("Unknown")] *)
Definition normalize_categorical `{Pandas} (s : Series) : Series :=
  fillna (Str "Unknown") (astype_str s).

Definition numeric_columns : list string :=
  ["Sales"; "Profit"; "Discount"; "Quantity"].

Definition categorical_columns : list string :=
  ["Region"; "State"; "City"; "Category"; "Sub-Category"; "Segment"; "Customer ID"].

Local Open Scope exn_scope.

(** [if col in df.columns: df[col] = f(df[col])] *)
Definition normalize_column (f : Series -> Series) (df : exn + RawFrame)
  (col : string) : exn + RawFrame :=
  df <- df ;;
  if has_column col df
  then s <- getitem col df ;; inr (setitem col (f s) df)
  else inr df.

(** Lines 64-72, run on a table that has an "Order Date" column. *)
Definition normalize `{Pandas} (df : RawFrame) : exn + RawFrame :=
  s <- getitem "Order Date" df ;;
  let df := setitem "Order Date" (to_datetime_coerce s) df in
  df <- fold_left (normalize_column normalize_numeric) numeric_columns (inr df) ;;
  fold_left (normalize_column normalize_categorical) categorical_columns (inr df).

(** A file, as far as the loader can tell: what
    [pd.read_csv(path, encoding="latin1")] does on it. *)
Definition File := (exn + RawFrame)%type.

(** The directory tree under the search root: the files of a directory
    and its sub-directories, in the order the system lists them. *)
#[local] Set Warnings "-register-all".
Inductive tree := Dir (files : list (string * File)) (subdirs : list (string * tree)).

(** [os.path.join(root, name)] *)
Definition path_join (root name : string) : string :=
  (root ++ "/" ++ name)%string.

(** [os.walk(top)]: top-down, one triple (path, sub-directory names,
    files) per directory, each directory before its sub-directories. *)
Fixpoint walk (top : string) (t : tree)
  : list (string * list string * list (string * File)) :=
  match t with
  | Dir files subdirs =>
      (top, map fst subdirs, files)
        :: flat_map (fun d => match d with
                              | (name, sub) => walk (path_join top name) sub
                              end) subdirs
  end.

(** The file of that name in a directory listing. *)
Fixpoint file_named (name : string) (files : list (string * File)) : option File :=
  match files with
  | [] => None
  | (n, f) :: files' => if String.eqb n name then Some f else file_named name files'
  end.

Inductive load_error :=
| NotFound (message : string)       (* raised by the loader, line 77 *)
| Propagated (e : exn).             (* raised inside pandas *)

(** f"No se encontró '{nombre_archivo}' en ninguna carpeta dentro de {ruta_base}" *)
Definition not_found_message (nombre_archivo ruta_base : string) : string :=
  ("No se encontró '" ++ nombre_archivo ++ "' en ninguna carpeta dentro de "
     ++ ruta_base)%string.

(** Lines 60-74 for one matching file: [Some] table when the function
    returns it, [None] when the loop goes on. *)
Definition load_file `{Pandas} (f : File) : exn + option RawFrame :=
  raw <- f ;;
  df <- data_cleaning raw ;;
  if has_column "Order Date" df
  then df <- normalize df ;; inr (Some df)
  else inr None.

Local Close Scope exn_scope.

(** The [for] loop over the directories that [os.walk] yields. *)
Fixpoint search `{Pandas} (nombre_archivo ruta_base : string)
  (entries : list (string * list string * list (string * File)))
  : load_error + RawFrame :=
  match entries with
  | [] => inl (NotFound (not_found_message nombre_archivo ruta_base))
  | (root, dirs, files) :: rest =>
      match file_named nombre_archivo files with
      | Some f =>
          match load_file f with
          | inl e => inl (Propagated e)
          | inr (Some df) => inr df
          | inr None => search nombre_archivo ruta_base rest
          end
      | None => search nombre_archivo ruta_base rest
      end
  end.

(** [data_loader(nombre_archivo)] with the home directory [ruta_base]
    holding the tree [home]. *)
Definition data_loader `{Pandas} (ruta_base : string) (home : tree)
  (nombre_archivo : string) : load_error + RawFrame :=
  search nombre_archivo ruta_base (walk ruta_base home).

(** The files called [name] that the walk meets, in the order it meets
    them. *)
Definition candidates (name : string)
  (entries : list (string * list string * list (string * File))) : list File :=
  flat_map (fun e => match file_named name (snd e) with
                     | Some f => [f]
                     | None => []
                     end) entries.

(** A file called [name] lies somewhere under the directory, at any depth. *)
Inductive file_under (name : string) (f : File) : tree -> Prop :=
| file_here : forall files subdirs,
    file_named name files = Some f -> file_under name f (Dir files subdirs)
| file_below : forall files subdirs d sub,
    In (d, sub) subdirs -> file_under name f sub ->
    file_under name f (Dir files subdirs).

(** A matching file the loader passes over: it parses, and the parsed
    table has no "Order Date" column. *)
Definition passed_over (f : File) : Prop :=
  exists raw, f = inr raw /\ has_column "Order Date" raw = false.

(** A matching file the loader accepts. *)
Definition accepted (f : File) (raw : RawFrame) : Prop :=
  f = inr raw /\ has_column "Order Date" raw = true.

(** The loop of [search] read on the matching files alone. *)
Fixpoint first_accepted `{Pandas} (nombre_archivo ruta_base : string)
  (files : list File) : load_error + RawFrame :=
  match files with
  | [] => inl (NotFound (not_found_message nombre_archivo ruta_base))
  | f :: rest =>
      match load_file f with
      | inl e => inl (Propagated e)
      | inr (Some df) => inr df
      | inr None => first_accepted nombre_archivo ruta_base rest
      end
  end.

(** ** A small stand-in for pandas' converters

    Enough to run the examples: it reads whole numbers in decimal
    notation and dates written YYYY-MM-DD (kept as the number yyyymmdd).
    The theorems below hold for every instance of [Pandas]. *)

Definition digit_value (a : ascii) : option Z :=
  let n := nat_of_ascii a in
  if Nat.leb 48 n && Nat.leb n 57 then Some (Z.of_nat (n - 48)) else None.

Fixpoint parse_digits (acc : Z) (s : string) : option Z :=
  match s with
  | EmptyString => Some acc
  | String a s' =>
      match digit_value a with
      | Some d => parse_digits (10 * acc + d) s'
      | None => None
      end
  end.

Definition parse_integer (s : string) : option Z :=
  match s with
  | EmptyString => None
  | String "-" EmptyString => None
  | String "-" s' => option_map Z.opp (parse_digits 0 s')
  | _ => parse_digits 0 s
  end.

Definition parse_iso_date (s : string) : option Z :=
  match s with
  | String y1 (String y2 (String y3 (String y4 (String "-"
      (String m1 (String m2 (String "-" (String d1 (String d2 EmptyString))))))))) =>
      parse_digits 0
        (String y1 (String y2 (String y3 (String y4
           (String m1 (String m2 (String d1 (String d2 EmptyString))))))))
  | _ => None
  end.

Fixpoint traverse {A B : Type} (f : A -> option B) (l : list A) : option (list B) :=
  match l with
  | [] => Some []
  | x :: l' =>
      match f x, traverse f l' with
      | Some y, Some ys => Some (y :: ys)
      | _, _ => None
      end
  end.

Definition cell_to_float (c : cell) : cell :=
  match c with
  | Int z => Flt (of_Z z)
  | other => other
  end.

(** An all-integer result is int64; one with missing values is float64. *)
Definition numeric_series (cells : list cell) : Series :=
  if existsb is_missing cells
  then mkSeries float64 (map (fun c => if is_missing c then NA else cell_to_float c) cells)
  else mkSeries int64 cells.

Definition example_to_numeric (s : Series) : exn + Series :=
  match dtype_of s with
  | object =>
      match traverse (fun c => match c with
                               | Str x => option_map Int (parse_integer x)
                               | NA => Some NA
                               | _ => None
                               end) (values s) with
      | Some cells => inr (numeric_series cells)
      | None => inl (Exn "ValueError" "Unable to parse string")
      end
  | _ => inr s
  end.

Definition example_to_datetime (s : Series) : exn + Series :=
  match dtype_of s with
  | object =>
      match traverse (fun c => match c with
                               | Str x => option_map Timestamp (parse_iso_date x)
                               | NA | NaT => Some NaT
                               | _ => None
                               end) (values s) with
      | Some cells => inr (mkSeries datetime64 cells)
      | None => inl (Exn "ValueError" "Unknown datetime string format")
      end
  | _ => inr s
  end.

Definition example_to_numeric_coerce (s : Series) : Series :=
  match dtype_of s with
  | object =>
      numeric_series
        (map (fun c => match c with
                       | Str x => match parse_integer x with
                                  | Some z => Int z
                                  | None => NA
                                  end
                       | _ => NA
                       end) (values s))
  | _ => s
  end.

Definition example_to_datetime_coerce (s : Series) : Series :=
  match dtype_of s with
  | object =>
      mkSeries datetime64
        (map (fun c => match c with
                       | Str x => match parse_iso_date x with
                                  | Some t => Timestamp t
                                  | None => NaT
                                  end
                       | _ => NaT
                       end) (values s))
  | _ => s
  end.

Fixpoint digits_of_pos (fuel : nat) (n : Z) (acc : string) : string :=
  match fuel with
  | O => acc
  | S fuel' =>
      let acc' := String (ascii_of_nat (48 + Z.to_nat (n mod 10))) acc in
      if n / 10 =? 0 then acc' else digits_of_pos fuel' (n / 10) acc'
  end.

Definition decimal_of_Z (z : Z) : string :=
  if z <? 0
  then String "-" (digits_of_pos (Z.to_nat (Z.log2 (- z)) + 1) (- z) EmptyString)
  else digits_of_pos (Z.to_nat (Z.log2 z) + 1) z EmptyString.

Definition example_str_of_value (c : cell) : string :=
  match c with
  | Int z => decimal_of_Z z
  | Timestamp t => decimal_of_Z t
  | Bool true => "True"
  | Bool false => "False"
  | _ => ""
  end.

Definition pandas_example : Pandas :=
  {| to_numeric := example_to_numeric;
     to_datetime := example_to_datetime;
     to_numeric_coerce := example_to_numeric_coerce;
     to_datetime_coerce := example_to_datetime_coerce;
     str_of_value := example_str_of_value |}.

(** ** Example data *)

Definition f_tenth : float := S754_finite false 7205759403792794 (-56).
Definition f_half : float := S754_finite false 4503599627370496 (-53).

(** The two orders of the specification's scenario. *)
Definition two_rows : DataFrame :=
  [ mkRow "East" "Ohio" "Furniture" "Chairs" (of_Z 100) (of_Z 20) f_tenth;
    mkRow "West" "Utah" "Furniture" "Tables" (of_Z 200) (of_Z (-50)) f_half ].

Definition row_profit_one : Row :=
  mkRow "East" "Ohio" "Furniture" "Chairs" f_one f_one f_zero.

Definition no_category : Selection :=
  mkSelection ["East"; "West"] [] ["Chairs"; "Tables"] (f_zero, f_one).

(** A parsed CSV with an order date, a region column with an empty cell
    and amounts written as currency. *)
Definition orders_csv : RawFrame :=
  [ ("Order Date", mkSeries object [Str "2020-01-05"; Str "2020-02-01"]);
    ("Region", mkSeries object [Str "East"; NA]);
    ("Sales", mkSeries object [Str "$1,200"; Str "$950"]) ].

(** A parsed CSV without an order date. *)
Definition sales_only_csv : RawFrame :=
  [ ("Sales", mkSeries object [Str "$1,200"; Str "$950"]) ].

Definition home_sales_only : tree :=
  Dir [("superstore.csv", inr sales_only_csv)] [].

Definition home_two_matches : tree :=
  Dir [("notes.txt", inl (Exn "ParserError" "Error tokenizing data"))]
      [ ("a", Dir [("superstore.csv", inr sales_only_csv)] []);
        ("b", Dir [] [("c", Dir [("superstore.csv", inr orders_csv)] [])]) ].

Definition home_no_match : tree :=
  Dir [("notes.txt", inl (Exn "ParserError" "Error tokenizing data"))]
      [ ("a", Dir [] []) ].

Definition home_orders : tree :=
  Dir [("superstore.csv", inr orders_csv)] [].

(** What the loader makes of [orders_csv]. *)
Definition loaded_orders : RawFrame :=
  [ ("Order Date", mkSeries datetime64 [Timestamp 20200105; Timestamp 20200201]);
    ("Region", mkSeries object [Str "East"; Str "nan"]);
    ("Sales", mkSeries int64 [Int 1200; Int 950]) ].

(** 1200.0 and 950.0 *)
Definition f_1200 : float := S754_finite false 5277655813324800 (-42).
Definition f_950 : float := S754_finite false 8356288371097600 (-43).

Definition currency_column : Series := mkSeries object [Str "$1,200"; Str "$950"].

(** A view in which one region is called "Total". *)
Definition total_region_rows : DataFrame :=
  [ mkRow "Total" "Ohio" "Furniture" "Chairs" f_one (of_Z 5) f_zero;
    mkRow "East" "Ohio" "Furniture" "Chairs" f_one (of_Z 3) f_zero;
    mkRow "East" "Utah" "Furniture" "Chairs" f_one (of_Z (-3)) f_zero ].

(** ** From the loaded table to the rows the page reads *)

(** The number in a cell of a numeric column; a text has none. *)
Definition float_cell (c : cell) : option float :=
  match c with
  | Int z => Some (of_Z z)
  | Flt x => Some x
  | NA => Some S754_nan
  | _ => None
  end.

Definition text_cell (c : cell) : option string :=
  match c with
  | Str s => Some s
  | _ => None
  end.

Definition float_column (label : string) (df : RawFrame) : option (list float) :=
  match getitem label df with
  | inr s => traverse float_cell (values s)
  | inl _ => None
  end.

Definition text_column (label : string) (df : RawFrame) : option (list string) :=
  match getitem label df with
  | inr s => traverse text_cell (values s)
  | inl _ => None
  end.

(** The rows of a table that has the seven columns the page reads, with
    text in the categorical ones and numbers in the others. *)
Definition rows_of (df : RawFrame) : option DataFrame :=
  match text_column "Region" df, text_column "State" df,
        text_column "Category" df, text_column "Sub-Category" df,
        float_column "Sales" df, float_column "Profit" df,
        float_column "Discount" df with
  | Some region, Some state, Some category, Some sub, Some sales, Some profit,
    Some discount =>
      Some (map (fun t =>
                   match t with
                   | (rg, (st, (ca, (su, (sa, (pr, di)))))) =>
                       mkRow rg st ca su sa pr di
                   end)
              (combine region (combine state (combine category (combine sub
                 (combine sales (combine profit discount)))))))
  | _, _, _, _, _, _, _ => None
  end.

(** 0.2, 0.3 and the selections of the specification's scenarios *)
Definition f_fifth : float := S754_finite false 7205759403792794 (-55).
Definition f_three_tenths : float := S754_finite false 5404319552844595 (-54).

Definition all_discounts : Selection :=
  mkSelection ["East"; "West"] ["Furniture"] ["Chairs"; "Tables"] (f_zero, f_one).

Definition low_discounts : Selection :=
  mkSelection ["East"; "West"] ["Furniture"] ["Chairs"; "Tables"] (f_zero, f_fifth).

(** ** The colour range and the height of the heat map *)

Definition fopp : float -> float := SFopp.

(** [range_color=(-max_abs, max_abs)] of the coloured charts, and
    [zmin=-max_abs, zmax=max_abs] of the heat map. *)
Definition range_color (df : DataFrame) : float * float :=
  (fopp (max_abs df), max_abs df).

(** Line 383: [heat_h = max(420, 18 * pivot.shape[0])] *)
Definition heat_h (pivot : Table) : Z :=
  Z.max 420 (18 * Z.of_nat (List.length (rows pivot))).

(** Image of [fopp] on positions. *)
Definition kopp (k : Z * Z * Z) : Z * Z * Z :=
  let '(a, b, c) := k in (- a, - b, - c).

(** Position of a number in the descending order of
    [sort_values(..., ascending=False)]: NaN below everything. *)
Definition dkey (x : float) : Z * Z * Z :=
  if is_nan x then (-3, 0, 0) else fkey x.


(** The columns the pivot keeps: every label but the one of the helper
    column. *)
Definition not_Total (c : string) : bool := negb (String.eqb c "Total").

(** A slider whose bounds are crossed. *)
Definition crossed_discounts : Selection :=
  mkSelection ["East"; "West"] ["Furniture"] ["Chairs"; "Tables"] (f_one, f_zero).



(** The column labels the pivot ends with, and a row of [all_pivot_rows]
    cut down to them. *)
Definition pivot_kept_columns (df : DataFrame) : list string :=
  filter not_Total (pivot_columns df).

Definition trim_row (df : DataFrame) (r : string * list float)
  : string * list float :=
  (fst r, map (pivot_cell df (fst r)) (pivot_kept_columns df)).

(** Three files of the target name: one without an order date, one that
    [read_csv] cannot parse, one that is fine. *)
Definition home_unreadable_first : tree :=
  Dir [("superstore.csv", inr sales_only_csv)]
      [ ("a", Dir [("superstore.csv", inl (Exn "ParserError" "Error tokenizing data"))] []);
        ("b", Dir [("superstore.csv", inr orders_csv)] []) ].

(** ** Rows of a column-wise table *)

(** Every column has as many cells as the first one. *)
Definition rectangular (df : RawFrame) : Prop :=
  forall c, In c df -> List.length (values (snd c)) = nrows df.

Definition table_rows (df : RawFrame) : list (list cell) :=
  map (row_at df) (seq 0 (nrows df)).

(** The positions of the rows that no earlier row equals. *)
Definition first_rows (df : RawFrame) : list nat :=
  filter (fun i => negb (existsb (fun j => row_eqb (row_at df j) (row_at df i))
                                 (seq 0 i)))
         (seq 0 (nrows df)).

Definition two_equal_rows : RawFrame :=
  [ ("Region", mkSeries object [Str "East"; Str "West"; Str "East"]);
    ("Sales", mkSeries float64 [Flt f_one; Flt f_zero; Flt f_one]) ].

(* ===================================================================== *)
(** * Part II. Properties                                                  *)
(* ===================================================================== *)

(** ** Order of binary64 *)

Lemma f_one_is_one : f_one = SFone prec emax.
Proof. reflexivity. Qed.

Ltac float_cases :=
  repeat match goal with
         | x : float |- _ => destruct x
         | x : spec_float |- _ => destruct x
         | b : bool |- _ => destruct b
         end.

Ltac cmp_cases :=
  repeat match goal with
         | |- context [Z.compare ?a ?b] => destruct (Z.compare_spec a b)
         | |- context [Pos.compare_cont Eq ?a ?b] =>
             change (Pos.compare_cont Eq a b) with (Pos.compare a b);
             destruct (Pos.compare_spec a b)
         | H : context [Z.compare ?a ?b] |- _ => destruct (Z.compare_spec a b)
         | H : context [Pos.compare_cont Eq ?a ?b] |- _ =>
             change (Pos.compare_cont Eq a b) with (Pos.compare a b) in H;
             destruct (Pos.compare_spec a b)
         end.

Lemma fleb_key (x y : float) :
  is_nan x = false -> is_nan y = false ->
  (fleb x y = true <-> key_le (fkey x) (fkey y)).
Proof.
  unfold fleb, SFleb, SFcompare, key_le, fkey.
  intros Hx Hy; float_cases; simpl in *; try discriminate;
    cmp_cases; simpl; split; intros; try discriminate; try reflexivity;
    try lia.
Qed.

Lemma fltb_key (x y : float) :
  is_nan x = false -> is_nan y = false ->
  (fltb x y = true <-> key_lt (fkey x) (fkey y)).
Proof.
  unfold fltb, SFltb, SFcompare, key_lt, fkey.
  intros Hx Hy; float_cases; simpl in *; try discriminate;
    cmp_cases; simpl; split; intros; try discriminate; try reflexivity;
    try lia.
Qed.

Lemma feqb_key (x y : float) :
  is_nan x = false -> is_nan y = false ->
  (feqb x y = true <-> fkey x = fkey y).
Proof.
  unfold feqb, SFeqb, SFcompare, fkey.
  intros Hx Hy; float_cases; simpl in *; try discriminate;
    cmp_cases; simpl; split; intros; try discriminate; try reflexivity;
    try congruence; try (exfalso; congruence);
    try (match goal with H : (_, _, _) = (_, _, _) |- _ => inversion H end; lia).
Qed.

(** ** Filter engine *)

Lemma existsb_eqb_In (s : string) (l : list string) :
  existsb (String.eqb s) l = true <-> In s l.
Proof.
  rewrite existsb_exists; split.
  - intros [y [Hy He]]. apply String.eqb_eq in He. now subst.
  - intros H. exists s. split; [assumption | apply String.eqb_refl].
Qed.

Lemma row_passesb_spec (sel : Selection) (r : Row) :
  row_passesb sel r = true <-> row_passes sel r.
Proof.
  unfold row_passesb, row_passes.
  rewrite !andb_true_iff, !existsb_eqb_In. tauto.
Qed.

Lemma mask_and_map {A : Type} (f g : A -> bool) (l : list A) :
  mask_and (map f l) (map g l) = map (fun x => f x && g x) l.
Proof.
  unfold mask_and. induction l as [|x l IH]; simpl; [reflexivity|].
  now rewrite IH.
Qed.

Lemma filter_mask_rowwise (df_full : DataFrame) (sel : Selection) :
  filter_mask df_full sel = map (row_passesb sel) df_full.
Proof.
  unfold filter_mask, isin, ge_scalar, le_scalar.
  rewrite !map_map, !mask_and_map. reflexivity.
Qed.

Lemma boolean_index_map (f : Row -> bool) (df : DataFrame) :
  boolean_index df (map f df) = filter f df.
Proof.
  unfold boolean_index. induction df as [|r df IH]; simpl; [reflexivity|].
  destruct (f r); simpl; now rewrite IH.
Qed.

Lemma filter_subsequence {A : Type} (f : A -> bool) (l : list A) :
  subsequence (filter f l) l.
Proof.
  induction l as [|x l IH]; simpl; [constructor|].
  destruct (f x); now constructor.
Qed.

Lemma filtered_view_filter (df_full : DataFrame) (sel : Selection) :
  filtered_view df_full sel = filter (row_passesb sel) df_full.
Proof.
  unfold filtered_view. rewrite filter_mask_rowwise. apply boolean_index_map.
Qed.

(** C1. The mask-based filter of the script keeps exactly the rows of the
    dataset whose region, category and sub-category are among the selected
    ones and whose discount lies in the closed interval [lo, hi]; what it
    returns is taken from the dataset, every row as often as it passes,
    and in the dataset's row order. *)
Theorem filtered_view_exact (df_full : DataFrame) (sel : Selection) :
  (forall r, In r (filtered_view df_full sel) <->
             In r df_full /\ row_passes sel r) /\
  filtered_view df_full sel = filter (row_passesb sel) df_full /\
  (forall r, row_passesb sel r = true <-> row_passes sel r) /\
  incl (filtered_view df_full sel) df_full /\
  subsequence (filtered_view df_full sel) df_full.
Proof.
  rewrite filtered_view_filter.
  split; [|split; [reflexivity|split; [apply row_passesb_spec|split]]].
  - intros r. rewrite filter_In, row_passesb_spec. tauto.
  - intros r Hr. apply filter_In in Hr. tauto.
  - apply filter_subsequence.
Qed.

(** ** Minimum, maximum and absolute value *)

Lemma fkey_fabs (x : float) : is_nan x = false -> fkey (fabs x) = kabs (fkey x).
Proof.
  destruct x as [[]|[]| |[] m e]; simpl; intros; try discriminate;
    rewrite ?Z.opp_involutive; reflexivity.
Qed.

Lemma is_nan_fabs (x : float) : is_nan (fabs x) = is_nan x.
Proof. now destruct x. Qed.

Lemma key_le_refl k : key_le k k.
Proof. destruct k as [[a b] c]; simpl; lia. Qed.

Lemma key_le_trans k1 k2 k3 : key_le k1 k2 -> key_le k2 k3 -> key_le k1 k3.
Proof.
  destruct k1 as [[a1 b1] c1], k2 as [[a2 b2] c2], k3 as [[a3 b3] c3]; simpl; lia.
Qed.

Lemma key_lt_le k1 k2 : key_lt k1 k2 -> key_le k1 k2.
Proof. destruct k1 as [[a1 b1] c1], k2 as [[a2 b2] c2]; simpl; lia. Qed.

Lemma key_not_lt k1 k2 : ~ key_lt k1 k2 -> key_le k2 k1.
Proof. destruct k1 as [[a1 b1] c1], k2 as [[a2 b2] c2]; simpl; lia. Qed.

Lemma kabs_bound lo p hi :
  key_le lo p -> key_le p hi ->
  key_le (kabs p) (kabs lo) \/ key_le (kabs p) (kabs hi).
Proof.
  destruct lo as [[a1 b1] c1], p as [[a2 b2] c2], hi as [[a3 b3] c3];
    unfold kabs; simpl.
  destruct (Z.ltb_spec a1 0), (Z.ltb_spec a2 0), (Z.ltb_spec a3 0); simpl; lia.
Qed.

Lemma fltb_false_le (x y : float) :
  is_nan x = false -> is_nan y = false -> fltb x y = false -> fleb y x = true.
Proof.
  intros Hx Hy H. apply fleb_key; trivial. apply key_not_lt.
  intros Hlt. apply fltb_key in Hlt; trivial. congruence.
Qed.

Lemma fltb_true_le (x y : float) :
  is_nan x = false -> is_nan y = false -> fltb x y = true -> fleb x y = true.
Proof.
  intros Hx Hy H. apply fleb_key; trivial. apply key_lt_le.
  now apply fltb_key.
Qed.

Lemma fleb_refl (x : float) : is_nan x = false -> fleb x x = true.
Proof. intros. apply fleb_key; trivial. apply key_le_refl. Qed.

Lemma fleb_trans (x y z : float) :
  is_nan x = false -> is_nan y = false -> is_nan z = false ->
  fleb x y = true -> fleb y z = true -> fleb x z = true.
Proof.
  intros Hx Hy Hz H1 H2. apply fleb_key; trivial.
  apply key_le_trans with (fkey y); now apply fleb_key.
Qed.

Lemma dropna_no_nan (c : list float) : no_nan c -> dropna c = c.
Proof.
  unfold no_nan, dropna. induction 1 as [|x c Hx _ IH]; simpl; [reflexivity|].
  rewrite Hx; simpl. now rewrite IH.
Qed.

(** The running minimum of a NaN-free column is one of its values and lies
    below all of them. *)
Lemma fold_min_spec (xs : list float) (x : float) :
  is_nan x = false -> no_nan xs ->
  let m := fold_left (fun acc v => if fltb v acc then v else acc) xs x in
  In m (x :: xs) /\ is_nan m = false /\
  forall y, In y (x :: xs) -> fleb m y = true.
Proof.
  revert x. induction xs as [|v xs IH]; intros x Hx Hxs; simpl.
  - split; [now left|]. split; [assumption|].
    intros y [<-|[]]. now apply fleb_refl.
  - inversion Hxs as [|? ? Hv Hxs']; subst.
    destruct (fltb v x) eqn:E.
    + destruct (IH v Hv Hxs') as [Hin [Hn Hle]]. simpl in *.
      split; [tauto|]. split; [assumption|].
      intros y [<-|[<-|Hy]]; [|auto..].
      apply fleb_trans with v; auto. now apply fltb_true_le.
    + destruct (IH x Hx Hxs') as [Hin [Hn Hle]]. simpl in *.
      split; [tauto|]. split; [assumption|].
      intros y [<-|[<-|Hy]]; [auto| |auto].
      apply fleb_trans with x; auto. now apply fltb_false_le.
Qed.

Lemma fold_max_spec (xs : list float) (x : float) :
  is_nan x = false -> no_nan xs ->
  let m := fold_left (fun acc v => if fltb acc v then v else acc) xs x in
  In m (x :: xs) /\ is_nan m = false /\
  forall y, In y (x :: xs) -> fleb y m = true.
Proof.
  revert x. induction xs as [|v xs IH]; intros x Hx Hxs; simpl.
  - split; [now left|]. split; [assumption|].
    intros y [<-|[]]. now apply fleb_refl.
  - inversion Hxs as [|? ? Hv Hxs']; subst.
    destruct (fltb x v) eqn:E.
    + destruct (IH v Hv Hxs') as [Hin [Hn Hle]]. simpl in *.
      split; [tauto|]. split; [assumption|].
      intros y [<-|[<-|Hy]]; [|auto..].
      apply fleb_trans with v; auto. now apply fltb_true_le.
    + destruct (IH x Hx Hxs') as [Hin [Hn Hle]]. simpl in *.
      split; [tauto|]. split; [assumption|].
      intros y [<-|[<-|Hy]]; [auto| |auto].
      apply fleb_trans with x; auto. now apply fltb_false_le.
Qed.

Lemma col_min_spec (c : list float) :
  c <> [] -> no_nan c ->
  In (col_min c) c /\ is_nan (col_min c) = false /\
  forall y, In y c -> fleb (col_min c) y = true.
Proof.
  intros Hne Hc. unfold col_min. rewrite (dropna_no_nan c Hc).
  destruct c as [|x xs]; [congruence|].
  inversion Hc; subst. now apply fold_min_spec.
Qed.

Lemma col_max_spec (c : list float) :
  c <> [] -> no_nan c ->
  In (col_max c) c /\ is_nan (col_max c) = false /\
  forall y, In y c -> fleb y (col_max c) = true.
Proof.
  intros Hne Hc. unfold col_max. rewrite (dropna_no_nan c Hc).
  destruct c as [|x xs]; [congruence|].
  inversion Hc; subst. now apply fold_max_spec.
Qed.

(** ** Symmetric colour-scale bound *)

Lemma py_max_spec (a b : float) :
  is_nan a = false -> is_nan b = false ->
  (py_max a b = a \/ py_max a b = b) /\
  fleb a (py_max a b) = true /\ fleb b (py_max a b) = true.
Proof.
  intros Ha Hb. unfold py_max. destruct (fltb a b) eqn:E.
  - split; [now right|]. split; [now apply fltb_true_le | now apply fleb_refl].
  - split; [now left|]. split; [now apply fleb_refl | now apply fltb_false_le].
Qed.

Lemma fabs_key_nonneg (x : float) :
  is_nan x = false -> key_le (0, 0, 0) (fkey (fabs x)).
Proof. destruct x as [[]|[]| |[] m e]; simpl; intros; try discriminate; lia. Qed.

Lemma feqb_zero_fabs (x : float) : feqb (fabs x) f_zero = feqb x f_zero.
Proof. now destruct x as [[]|[]| |[] m e]. Qed.

Lemma fleb_zero_eq (x : float) :
  is_nan x = false -> fleb (fabs x) f_zero = true -> feqb x f_zero = true.
Proof. destruct x as [[]|[]| |[] m e]; simpl; intros; try discriminate; reflexivity. Qed.

Lemma fleb_zero_one (x : float) :
  is_nan x = false -> fleb x f_zero = true -> fleb x f_one = true.
Proof.
  intros Hx H. apply fleb_trans with f_zero; trivial.
Qed.

Section MaxAbs.
Variable df : DataFrame.
Hypothesis Hne : df <> [].
Hypothesis Hnan : no_nan (map Profit df).

Let c := map Profit df.
Let lo := col_min c.
Let hi := col_max c.
Let m := py_max (fabs lo) (fabs hi).

Lemma profit_col_nonempty : c <> [].
Proof. subst c. destruct df; [congruence | discriminate]. Qed.

Lemma raw_bound_spec :
  is_nan m = false /\
  (m = fabs lo \/ m = fabs hi) /\
  In lo c /\ In hi c /\
  forall p, In p c -> fleb (fabs p) m = true.
Proof.
  destruct (col_min_spec c profit_col_nonempty Hnan) as [Hlo_in [Hlo_n Hlo]].
  destruct (col_max_spec c profit_col_nonempty Hnan) as [Hhi_in [Hhi_n Hhi]].
  fold lo in Hlo_in, Hlo_n, Hlo. fold hi in Hhi_in, Hhi_n, Hhi.
  assert (Ha : is_nan (fabs lo) = false) by now rewrite is_nan_fabs.
  assert (Hb : is_nan (fabs hi) = false) by now rewrite is_nan_fabs.
  destruct (py_max_spec _ _ Ha Hb) as [Hcase [Hma Hmb]]. fold m in Hcase, Hma, Hmb.
  assert (Hm : is_nan m = false) by (destruct Hcase as [-> | ->]; assumption).
  repeat split; trivial.
  intros p Hp.
  assert (Hpn : is_nan p = false).
  { unfold no_nan in Hnan. rewrite Forall_forall in Hnan. now apply Hnan. }
  assert (Hpa : is_nan (fabs p) = false) by now rewrite is_nan_fabs.
  specialize (Hlo p Hp). specialize (Hhi p Hp).
  apply fleb_key in Hlo; trivial. apply fleb_key in Hhi; trivial.
  destruct (kabs_bound _ _ _ Hlo Hhi) as [H | H];
    rewrite <- !fkey_fabs in H by assumption; apply fleb_key in H; trivial.
  - now apply fleb_trans with (fabs lo).
  - now apply fleb_trans with (fabs hi).
Qed.

Lemma max_abs_unfold : max_abs df = if feqb m f_zero then f_one else m.
Proof. reflexivity. Qed.

Lemma max_abs_dominates (p : float) : In p c -> fleb (fabs p) (max_abs df) = true.
Proof.
  intros Hp. destruct raw_bound_spec as [Hm [_ [_ [_ Hb]]]].
  assert (Hpn : is_nan (fabs p) = false).
  { rewrite is_nan_fabs. unfold no_nan in Hnan. rewrite Forall_forall in Hnan.
    now apply Hnan. }
  rewrite max_abs_unfold. destruct (feqb m f_zero) eqn:E; [|now apply Hb].
  apply fleb_zero_one; trivial.
  apply fleb_trans with m; trivial; [now apply Hb|].
  apply fleb_key; trivial. apply feqb_key in E; trivial. rewrite E.
  apply key_le_refl.
Qed.

Lemma max_abs_all_zero :
  Forall (fun p => feqb p f_zero = true) c -> max_abs df = f_one.
Proof.
  intros Hz. rewrite Forall_forall in Hz.
  destruct raw_bound_spec as [_ [Hcase [Hlo [Hhi _]]]].
  rewrite max_abs_unfold.
  replace (feqb m f_zero) with true; [reflexivity|].
  destruct Hcase as [-> | ->]; rewrite feqb_zero_fabs; symmetry; now apply Hz.
Qed.

Lemma max_abs_some_nonzero :
  Exists (fun p => feqb p f_zero = false) c ->
  feqb (max_abs df) f_zero = false /\
  exists p, In p c /\ max_abs df = fabs p.
Proof.
  intros Hex. apply Exists_exists in Hex. destruct Hex as [q [Hq Hqz]].
  destruct raw_bound_spec as [Hm [Hcase [Hlo [Hhi Hb]]]].
  assert (Hqn : is_nan q = false).
  { unfold no_nan in Hnan. rewrite Forall_forall in Hnan. now apply Hnan. }
  assert (E : feqb m f_zero = false).
  { destruct (feqb m f_zero) eqn:E; [|reflexivity]. exfalso.
    assert (H0 : fleb (fabs q) f_zero = true).
    { apply fleb_trans with m; trivial; [now rewrite is_nan_fabs | now apply Hb |].
      apply fleb_key; trivial. apply feqb_key in E; trivial. rewrite E.
      apply key_le_refl. }
    apply fleb_zero_eq in H0; trivial. congruence. }
  rewrite max_abs_unfold, E. split; [assumption|].
  destruct Hcase as [-> | ->]; eauto.
Qed.
End MaxAbs.

(** C4 (amended). On a non-empty view whose profits are numbers, the bound
    [max_abs] is at least [|p|] for every profit [p]; it is 1.0 when all
    profits are 0; and when some profit is not 0 it is nonzero and is the
    absolute value of one of the profits (the largest one), so that it
    is 1.0 there only if that largest absolute profit is itself 1.0. *)
Theorem max_abs_bound (df : DataFrame) :
  df <> [] -> no_nan (map Profit df) ->
  (forall r, In r df -> fleb (fabs (Profit r)) (max_abs df) = true) /\
  (Forall (fun r => feqb (Profit r) f_zero = true) df -> max_abs df = f_one) /\
  (Exists (fun r => feqb (Profit r) f_zero = false) df ->
     feqb (max_abs df) f_zero = false /\
     exists r, In r df /\ max_abs df = fabs (Profit r)).
Proof.
  intros Hne Hnan. split; [|split].
  - intros r Hr. apply max_abs_dominates; trivial. now apply in_map.
  - intros Hz. apply max_abs_all_zero; trivial.
    rewrite Forall_map. exact Hz.
  - intros Hex. destruct (max_abs_some_nonzero df Hne Hnan) as [H0 [p [Hp He]]].
    + rewrite Exists_map. exact Hex.
    + split; [assumption|]. apply in_map_iff in Hp. destruct Hp as [r [<- Hr]].
      now exists r.
Qed.

Lemma max_abs_bound_witness :
  (forall r, In r [row_profit_one] ->
             fleb (fabs (Profit r)) (max_abs [row_profit_one]) = true) /\
  (Forall (fun r => feqb (Profit r) f_zero = true) [row_profit_one] ->
   max_abs [row_profit_one] = f_one) /\
  (Exists (fun r => feqb (Profit r) f_zero = false) [row_profit_one] ->
     feqb (max_abs [row_profit_one]) f_zero = false /\
     exists r, In r [row_profit_one] /\ max_abs [row_profit_one] = fabs (Profit r)).
Proof.
  apply (max_abs_bound [row_profit_one]).
  - discriminate.
  - repeat constructor.
Defined.

(** C4 as written fails: a view whose only profit is 1.0 has bound 1.0
    although not all its profits are 0. *)
Lemma max_abs_one_without_zero_profits :
  [row_profit_one] <> [] /\
  no_nan (map Profit [row_profit_one]) /\
  ~ (feqb (max_abs [row_profit_one]) f_one = true <->
     Forall (fun r => feqb (Profit r) f_zero = true) [row_profit_one]).
Proof.
  split; [discriminate|]. split; [repeat constructor|].
  intros [H _]. specialize (H eq_refl). inversion H as [|? ? H0 _]; subst.
  discriminate H0.
Qed.

(** ** Default selection *)

Lemma In_dedup {A : Type} (eqb : A -> A -> bool) (x : A) (l : list A) :
  (forall a b, eqb a b = true <-> a = b) ->
  In x (dedup eqb l) <-> In x l.
Proof.
  intros Heq. induction l as [|y l IH]; simpl; [tauto|].
  rewrite filter_In, IH, negb_true_iff.
  destruct (eqb x y) eqn:E.
  - apply Heq in E. subst. intuition congruence.
  - assert (x <> y) by (intros ->; rewrite (proj2 (Heq y y) eq_refl) in E; discriminate).
    intuition congruence.
Qed.

Lemma In_insert_by {A : Type} (leb : A -> A -> bool) (x y : A) (l : list A) :
  In x (insert_by leb y l) <-> x = y \/ In x l.
Proof.
  induction l as [|z l IH]; simpl; [intuition congruence|].
  destruct (leb y z); simpl; [intuition congruence|].
  rewrite IH. intuition congruence.
Qed.

Lemma In_sort_by {A : Type} (leb : A -> A -> bool) (x : A) (l : list A) :
  In x (sort_by leb l) <-> In x l.
Proof.
  unfold sort_by. induction l as [|y l IH]; simpl; [tauto|].
  rewrite In_insert_by, IH. intuition congruence.
Qed.

Lemma In_unique (x : string) (l : list string) : In x (unique l) <-> In x l.
Proof. apply In_dedup. intros a b. apply String.eqb_eq. Qed.

Lemma In_sorted (x : string) (l : list string) : In x (sorted l) <-> In x l.
Proof. apply In_sort_by. Qed.

Lemma filter_all_true {A : Type} (f : A -> bool) (l : list A) :
  (forall x, In x l -> f x = true) -> filter f l = l.
Proof.
  induction l as [|x l IH]; simpl; intros H; [reflexivity|].
  rewrite (H x (or_introl eq_refl)), IH; [reflexivity|]. auto.
Qed.

Lemma default_selection_passes (df_full : DataFrame) (r : Row) :
  no_nan (map Discount df_full) -> In r df_full ->
  row_passes (default_selection df_full) r.
Proof.
  intros Hnan Hr. unfold row_passes, default_selection; simpl.
  assert (Hne : map Discount df_full <> []) by (destruct df_full; [contradiction | discriminate]).
  destruct (col_min_spec _ Hne Hnan) as [_ [_ Hmin]].
  destruct (col_max_spec _ Hne Hnan) as [_ [_ Hmax]].
  rewrite !In_sorted, !In_unique.
  repeat split; try (now apply in_map);
    [apply Hmin | apply Hmax]; now apply in_map.
Qed.

(** C9. With every region, category and sub-category of the dataset
    selected and the slider at [dataset minimum, dataset maximum], the
    filter returns the dataset itself.  The discounts of a loaded dataset
    are numbers (the loader replaces missing ones by 0). *)
Theorem default_selection_identity (df_full : DataFrame) :
  no_nan (map Discount df_full) ->
  filtered_view df_full (default_selection df_full) = df_full.
Proof.
  intros Hnan. rewrite filtered_view_filter. apply filter_all_true.
  intros r Hr. apply row_passesb_spec. now apply default_selection_passes.
Qed.

Lemma default_selection_identity_witness :
  filtered_view two_rows (default_selection two_rows) = two_rows.
Proof.
  apply (default_selection_identity two_rows).
  repeat constructor.
Defined.

(** ** Scalar KPIs *)

Lemma kpis_total (df : DataFrame) : exists k, kpis df = Some k.
Proof.
  unfold kpis, truthy, true_divide.
  destruct (feqb (col_sum (map Sales df)) f_zero); simpl; eauto.
Qed.



(** ** The guard on an empty view *)

Lemma aggregates_only_ret {A : Type} (df : DataFrame) (a : A) :
  aggregates_only df (ret a).
Proof.
  intros log. exists []. simpl. split; [now rewrite app_nil_r | contradiction].
Qed.

Lemma aggregates_only_emit (df : DataFrame) (e : event) :
  (forall d, e <> Aggregated d) -> aggregates_only df (emit e).
Proof.
  intros He log. exists [e]. simpl. split; [reflexivity|].
  intros d [H|[]]. now apply He in H.
Qed.

Lemma aggregates_only_aggregate {A : Type} (df : DataFrame) (r : option A) (exn : string) :
  aggregates_only df (aggregate df r exn).
Proof.
  intros log. exists [Aggregated df]. unfold aggregate.
  destruct r; simpl; (split; [reflexivity|]); intros d [H|[]]; congruence.
Qed.

Lemma aggregates_only_bind {A B : Type} (df : DataFrame) (m : App A) (k : A -> App B) :
  aggregates_only df m -> (forall a, aggregates_only df (k a)) ->
  aggregates_only df (bind m k).
Proof.
  intros Hm Hk log. unfold bind.
  destruct (Hm log) as [ext1 [E1 H1]].
  destruct (m log) as [[a| |e] log'] eqn:Em; simpl in E1; subst log'.
  - destruct (Hk a (log ++ ext1)) as [ext2 [E2 H2]].
    exists (ext1 ++ ext2). rewrite E2, app_assoc. split; [reflexivity|].
    intros d Hd. apply in_app_or in Hd. destruct Hd; auto.
  - exists ext1. simpl. auto.
  - exists ext1. simpl. auto.
Qed.

Lemma dashboard_aggregates_only (df : DataFrame) : aggregates_only df (dashboard df).
Proof.
  unfold dashboard.
  repeat first
    [ apply aggregates_only_bind; [|intros ?]
    | apply aggregates_only_aggregate
    | apply aggregates_only_emit; intros ?; discriminate ].
Qed.

(** C5. When the filtered view is empty the run emits the warning and
    stops there: the log holds the warning and nothing else, so no
    aggregation was evaluated.  In every run, whatever the selection, an
    aggregation is only ever evaluated on the filtered view of that run
    and that view is not empty. *)
Theorem empty_view_stops_before_aggregation (df_full : DataFrame) (sel : Selection) :
  (filtered_view df_full sel = [] ->
   run (render_pass df_full sel) = (Stopped, [Warning warning_text])) /\
  (forall d, In (Aggregated d) (snd (run (render_pass df_full sel))) ->
             d = filtered_view df_full sel /\ d <> []).
Proof.
  unfold run, render_pass. split.
  - intros ->. reflexivity.
  - intros d. destruct (filtered_view df_full sel) as [|r df] eqn:E.
    + simpl. intros [H|[]]. discriminate.
    + unfold bind at 1. simpl.
      destruct (dashboard_aggregates_only (r :: df) []) as [ext [Hext Hd]].
      rewrite Hext. simpl. intros Hin. apply Hd in Hin. subst. split; [reflexivity | discriminate].
Qed.

Lemma empty_view_stops_before_aggregation_witness :
  run (render_pass two_rows no_category) = (Stopped, [Warning warning_text]) /\
  (In (Aggregated two_rows)
      (snd (run (render_pass two_rows (default_selection two_rows)))) /\
   two_rows <> []).
Proof.
  split.
  - apply (proj1 (empty_view_stops_before_aggregation two_rows no_category)).
    reflexivity.
  - assert (H : In (Aggregated two_rows)
                   (snd (run (render_pass two_rows (default_selection two_rows))))).
    { vm_compute. tauto. }
    split; [exact H|].
    destruct (proj2 (empty_view_stops_before_aggregation two_rows
                       (default_selection two_rows)) two_rows H) as [_ Hne].
    exact Hne.
Defined.

(** ** Table access *)

Lemma has_column_In (label : string) (df : RawFrame) :
  has_column label df = true <-> In label (map fst df).
Proof.
  unfold has_column. rewrite existsb_exists, in_map_iff. split.
  - intros [c [Hc He]]. apply String.eqb_eq in He. now exists c.
  - intros [c [He Hc]]. exists c. split; [assumption|]. now apply String.eqb_eq.
Qed.

Lemma has_column_labels (label : string) (df df' : RawFrame) :
  map fst df' = map fst df -> has_column label df' = has_column label df.
Proof.
  intros E. apply eq_true_iff_eq. now rewrite !has_column_In, E.
Qed.

Lemma getitem_In (label : string) (df : RawFrame) :
  In label (map fst df) -> exists s, getitem label df = inr s.
Proof.
  induction df as [|[l s] df IH]; simpl; [contradiction|].
  intros H. destruct (String.eqb_spec l label) as [->|Hne]; [now exists s|].
  apply IH. destruct H; [contradiction | assumption].
Qed.

Lemma setitem_labels (label : string) (s : Series) (df : RawFrame) :
  In label (map fst df) -> map fst (setitem label s df) = map fst df.
Proof.
  induction df as [|[l s0] df IH]; simpl; [contradiction|].
  intros H. destruct (String.eqb_spec l label) as [->|Hne]; simpl; [reflexivity|].
  f_equal. apply IH. destruct H; [contradiction | assumption].
Qed.

Lemma getitem_setitem (label : string) (s : Series) (df : RawFrame) :
  getitem label (setitem label s df) = inr s.
Proof.
  induction df as [|[l s0] df IH]; simpl.
  - now rewrite String.eqb_refl.
  - destruct (String.eqb_spec l label) as [->|Hne]; simpl.
    + now rewrite String.eqb_refl.
    + destruct (String.eqb_spec l label); [contradiction | assumption].
Qed.

Lemma getitem_setitem_other (label other : string) (s : Series) (df : RawFrame) :
  other <> label -> getitem other (setitem label s df) = getitem other df.
Proof.
  intros Hne. induction df as [|[l s0] df IH]; simpl.
  - destruct (String.eqb_spec label other); [congruence | reflexivity].
  - destruct (String.eqb_spec l label) as [->|Hl]; simpl.
    + destruct (String.eqb_spec label other); [congruence | reflexivity].
    + now rewrite IH.
Qed.

(** ** Type coercion never raises *)

Section Cleaning.
Context `{P : Pandas}.

Lemma coerce_column_total (s : Series) : exists s', coerce_column s = inr s'.
Proof.
  unfold coerce_column, try_except.
  destruct (dtype_eqb (dtype_of s) object); [|now exists s].
  destruct (str_replace_currency s) as [e|stripped].
  - destruct (to_datetime s) as [e'|d]; eauto.
  - destruct (to_numeric stripped) as [e|n]; [|eauto].
    destruct (to_datetime s) as [e'|d]; eauto.
Qed.

Lemma clean_column_total (df : RawFrame) (col : string) :
  In col (map fst df) ->
  exists s s', getitem col df = inr s /\ coerce_column s = inr s' /\
               clean_column (inr df) col = inr (setitem col s' df).
Proof.
  intros Hin. destruct (getitem_In col df Hin) as [s Hs].
  destruct (coerce_column_total s) as [s' Hs'].
  exists s, s'. unfold clean_column. now rewrite Hs, Hs'.
Qed.

Lemma clean_fold_total (cols : list string) (df : RawFrame) :
  incl cols (map fst df) ->
  exists df', fold_left clean_column cols (inr df) = inr df' /\
              map fst df' = map fst df.
Proof.
  revert df. induction cols as [|col cols IH]; intros df Hincl; cbn [fold_left].
  - now exists df.
  - assert (Hin : In col (map fst df)) by (apply Hincl; now left).
    destruct (clean_column_total df col Hin) as [s [s' [_ [_ ->]]]].
    pose proof (setitem_labels col s' df Hin) as Hl.
    destruct (IH (setitem col s' df)) as [df' [Hf Hl']].
    + rewrite Hl. intros c Hc. apply Hincl. now right.
    + exists df'. split; [assumption | congruence].
Qed.

Lemma drop_duplicates_labels (df : RawFrame) :
  map fst (drop_duplicates df) = map fst df.
Proof. unfold drop_duplicates. rewrite map_map. reflexivity. Qed.

Lemma data_cleaning_total (df : RawFrame) :
  exists df', data_cleaning df = inr df' /\ map fst df' = map fst df.
Proof.
  unfold data_cleaning.
  destruct (clean_fold_total (map fst (drop_duplicates df)) (drop_duplicates df))
    as [df' [Hf Hl]]; [apply incl_refl|].
  exists df'. split; [assumption|]. now rewrite Hl, drop_duplicates_labels.
Qed.

(** ** Normalisation in the loader *)

Lemma normalize_fold_total (f : Series -> Series) (cols : list string) (df : RawFrame) :
  exists df', fold_left (normalize_column f) cols (inr df) = inr df' /\
              map fst df' = map fst df.
Proof.
  revert df. induction cols as [|col cols IH]; intros df; cbn [fold_left].
  - now exists df.
  - unfold normalize_column at 2. destruct (has_column col df) eqn:E.
    + apply has_column_In in E. destruct (getitem_In col df E) as [s ->].
      destruct (IH (setitem col (f s) df)) as [df' [Hf Hl]].
      exists df'. split; [assumption|]. now rewrite Hl, setitem_labels.
    + apply IH.
Qed.

Lemma normalize_total (df : RawFrame) :
  has_column "Order Date" df = true ->
  exists df', normalize df = inr df' /\ map fst df' = map fst df.
Proof.
  intros H. apply has_column_In in H. unfold normalize.
  destruct (getitem_In _ df H) as [s ->].
  destruct (normalize_fold_total normalize_numeric numeric_columns
              (setitem "Order Date" (to_datetime_coerce s) df)) as [df1 [-> H1]].
  destruct (normalize_fold_total normalize_categorical categorical_columns df1)
    as [df2 [-> H2]].
  exists df2. split; [reflexivity|]. now rewrite H2, H1, setitem_labels.
Qed.

Lemma load_file_raises (e : exn) : load_file (inl e) = inl e.
Proof. reflexivity. Qed.

Lemma load_file_passed_over (f : File) : passed_over f -> load_file f = inr None.
Proof.
  intros [raw [-> H]]. unfold load_file.
  destruct (data_cleaning_total raw) as [df [-> Hl]].
  now rewrite (has_column_labels _ _ _ Hl), H.
Qed.

Lemma load_file_accepted (f : File) (raw : RawFrame) :
  accepted f raw ->
  exists cleaned df, data_cleaning raw = inr cleaned /\ normalize cleaned = inr df /\
                     load_file f = inr (Some df) /\
                     has_column "Order Date" df = true.
Proof.
  intros [-> H]. unfold load_file.
  destruct (data_cleaning_total raw) as [cleaned [Hc Hl]].
  assert (Hoc : has_column "Order Date" cleaned = true)
    by now rewrite (has_column_labels _ _ _ Hl).
  destruct (normalize_total cleaned Hoc) as [df [Hn Hl']].
  exists cleaned, df. rewrite Hc, Hoc, Hn. repeat split.
  now rewrite (has_column_labels _ _ _ Hl').
Qed.

(** Every file is read with an error, passed over or accepted. *)
Lemma file_cases (f : File) :
  (exists e, f = inl e) \/ passed_over f \/ exists raw, accepted f raw.
Proof.
  destruct f as [e|raw]; [left; eauto|]. right.
  destruct (has_column "Order Date" raw) eqn:E.
  - right. exists raw. now split.
  - left. exists raw. now split.
Qed.
End Cleaning.

(** ** The directory walk *)

Lemma tree_induction (Pr : tree -> Prop) :
  (forall files subdirs,
      Forall (fun d => Pr (snd d)) subdirs -> Pr (Dir files subdirs)) ->
  forall t, Pr t.
Proof.
  intros H.
  refine (fix IH (t : tree) : Pr t :=
            match t with
            | Dir files subdirs =>
                H files subdirs
                  ((fix aux (l : list (string * tree))
                      : Forall (fun d => Pr (snd d)) l :=
                      match l with
                      | [] => Forall_nil _
                      | d :: l' =>
                          Forall_cons d
                            (match d return Pr (snd d) with
                             | (n, sub) => IH sub
                             end)
                            (aux l')
                      end) subdirs)
            end).
Qed.

Lemma candidates_app (name : string) l1 l2 :
  candidates name (l1 ++ l2) = candidates name l1 ++ candidates name l2.
Proof. unfold candidates. apply flat_map_app. Qed.

Lemma In_candidates_flat_map {A : Type} (name : string) (f : File)
  (g : A -> list (string * list string * list (string * File))) (l : list A) :
  In f (candidates name (flat_map g l)) <->
  exists a, In a l /\ In f (candidates name (g a)).
Proof.
  induction l as [|a l IH]; simpl.
  - split; [contradiction | intros [a [[] _]]].
  - rewrite candidates_app, in_app_iff, IH. split.
    + intros [H | [b [Hb H]]]; [exists a | exists b]; auto.
    + intros [b [[<- | Hb] H]]; [now left | right; eauto].
Qed.

(** The walk reaches the files of every directory, at any depth. *)
Lemma candidates_file_under (name : string) (f : File) (t : tree) :
  forall top, In f (candidates name (walk top t)) <-> file_under name f t.
Proof.
  induction t as [files subdirs IH] using tree_induction. intros top.
  rewrite Forall_forall in IH.
  change (walk top (Dir files subdirs))
    with ([(top, map fst subdirs, files)]
            ++ flat_map (fun d => match d with
                                  | (n, sub) => walk (path_join top n) sub
                                  end) subdirs).
  rewrite candidates_app, in_app_iff, In_candidates_flat_map. split.
  - intros [H | [[n sub] [Hd H]]].
    + apply file_here. unfold candidates in H. simpl in H.
      destruct (file_named name files) as [f'|]; simpl in H; [|contradiction].
      destruct H as [<- | []]. reflexivity.
    + apply file_below with n sub; [assumption|].
      apply (IH (n, sub) Hd (path_join top n)). exact H.
  - intros H. inversion H as [? ? Hf | ? ? n sub Hd Hsub]; subst.
    + left. unfold candidates. simpl. rewrite Hf. now left.
    + right. exists (n, sub). split; [assumption|].
      apply (IH (n, sub) Hd (path_join top n)). exact Hsub.
Qed.

(** ** The search loop *)

Section Loader.
Context `{P : Pandas}.
Variables nombre_archivo ruta_base : string.

Lemma search_candidates entries :
  search nombre_archivo ruta_base entries =
  first_accepted nombre_archivo ruta_base (candidates nombre_archivo entries).
Proof.
  induction entries as [|[[root dirs] files] rest IH]; [reflexivity|].
  change (candidates nombre_archivo ((root, dirs, files) :: rest))
    with ((match file_named nombre_archivo files with
           | Some f => [f]
           | None => []
           end) ++ candidates nombre_archivo rest).
  simpl search. destruct (file_named nombre_archivo files) as [f|]; simpl.
  - destruct (load_file f) as [e|[df|]]; auto.
  - exact IH.
Qed.

Lemma first_accepted_skip (pre rest : list File) :
  Forall passed_over pre ->
  first_accepted nombre_archivo ruta_base (pre ++ rest) =
  first_accepted nombre_archivo ruta_base rest.
Proof.
  induction 1 as [|f pre Hf _ IH]; simpl; [reflexivity|].
  now rewrite (load_file_passed_over f Hf).
Qed.

Lemma first_accepted_loaded (files : list File) (df : RawFrame) :
  first_accepted nombre_archivo ruta_base files = inr df <->
  exists pre f post raw cleaned,
    files = pre ++ f :: post /\ Forall passed_over pre /\ accepted f raw /\
    data_cleaning raw = inr cleaned /\ normalize cleaned = inr df.
Proof.
  split.
  - induction files as [|f files IH]; simpl; [discriminate|].
    destruct (file_cases f) as [[e ->] | [Hp | [raw Ha]]].
    + discriminate.
    + rewrite (load_file_passed_over f Hp). intros H.
      destruct (IH H) as [pre [f' [post [raw [cleaned [-> [Hpre Hrest]]]]]]].
      exists (f :: pre), f', post, raw, cleaned. split; [reflexivity|].
      split; [now constructor | assumption].
    + destruct (load_file_accepted f raw Ha) as [cleaned [df' [Hc [Hn [-> _]]]]].
      intros H. injection H as <-.
      exists [], f, files, raw, cleaned. repeat split; trivial; apply Ha.
  - intros [pre [f [post [raw [cleaned [-> [Hpre [Ha [Hc Hn]]]]]]]]].
    rewrite first_accepted_skip by assumption. simpl.
    destruct (load_file_accepted f raw Ha) as [cleaned' [df' [Hc' [Hn' [-> _]]]]].
    congruence.
Qed.

Lemma first_accepted_not_found (files : list File) :
  first_accepted nombre_archivo ruta_base files
    = inl (NotFound (not_found_message nombre_archivo ruta_base)) <->
  Forall passed_over files.
Proof.
  induction files as [|f files IH]; simpl.
  - split; [constructor | reflexivity].
  - destruct (file_cases f) as [[e ->] | [Hp | [raw Ha]]].
    + simpl. split; [discriminate|].
      intros H. inversion H as [|? ? [raw [Hr _]] _]. discriminate.
    + rewrite (load_file_passed_over f Hp), IH. split.
      * now constructor.
      * intros H. now inversion H.
    + destruct (load_file_accepted f raw Ha) as [cleaned [df' [_ [_ [-> _]]]]].
      split; [discriminate|].
      intros H. inversion H as [|? ? [raw' [Hr Hno]] _]; subst.
      destruct Ha as [Heq Hyes]. injection Heq as <-. congruence.
Qed.

Lemma first_accepted_has_order_date (files : list File) (df : RawFrame) :
  first_accepted nombre_archivo ruta_base files = inr df ->
  has_column "Order Date" df = true.
Proof.
  induction files as [|f files IH]; simpl; [discriminate|].
  destruct (file_cases f) as [[e ->] | [Hp | [raw Ha]]].
  - discriminate.
  - now rewrite (load_file_passed_over f Hp).
  - destruct (load_file_accepted f raw Ha) as [cleaned [df' [_ [_ [-> Hd]]]]].
    intros H. injection H as <-. exact Hd.
Qed.
End Loader.

(** ** The loader *)

(** C2 (amended). The loader walks the whole tree under the home
    directory, at any depth, and looks at the files of the target name in
    the order of the walk.  It returns the table of the first of them
    whose parsed table has an "Order Date" column, cleaned and
    normalised, when every matching file before it parses without that
    column; and it raises NotFound, naming the file and the root, exactly
    when every matching file parses to a table without that column, which
    includes the case that no file of that name exists under the root. *)
Theorem data_loader_first_accepted `{P : Pandas}
  (ruta_base : string) (home : tree) (nombre_archivo : string) :
  (forall f, In f (candidates nombre_archivo (walk ruta_base home)) <->
             file_under nombre_archivo f home) /\
  (forall df, data_loader ruta_base home nombre_archivo = inr df <->
     exists pre f post raw cleaned,
       candidates nombre_archivo (walk ruta_base home) = pre ++ f :: post /\
       Forall passed_over pre /\ accepted f raw /\
       data_cleaning raw = inr cleaned /\ normalize cleaned = inr df) /\
  (data_loader ruta_base home nombre_archivo
     = inl (NotFound (not_found_message nombre_archivo ruta_base)) <->
   Forall passed_over (candidates nombre_archivo (walk ruta_base home))) /\
  ((forall f, ~ file_under nombre_archivo f home) ->
   data_loader ruta_base home nombre_archivo
     = inl (NotFound (not_found_message nombre_archivo ruta_base))).
Proof.
  unfold data_loader. rewrite search_candidates.
  split; [|split; [|split]].
  - intros f. apply candidates_file_under.
  - intros df. apply first_accepted_loaded.
  - apply first_accepted_not_found.
  - intros Hnone. apply first_accepted_not_found. apply Forall_forall.
    intros f Hf. apply candidates_file_under in Hf. now apply Hnone in Hf.
Qed.

Lemma home_no_match_has_no_superstore :
  forall f, ~ file_under "superstore.csv" f home_no_match.
Proof.
  intros f H. inversion H as [? ? Hf | ? ? d sub Hd Hsub]; subst.
  - discriminate Hf.
  - destruct Hd as [Hd | []]. injection Hd as <- <-.
    inversion Hsub as [? ? Hf | ? ? d' sub' Hd' _]; subst.
    + discriminate Hf.
    + contradiction.
Qed.

Lemma data_loader_first_accepted_witness :
  @data_loader pandas_example "/home/u" home_no_match "superstore.csv"
    = inl (NotFound (not_found_message "superstore.csv" "/home/u")).
Proof.
  apply (proj2 (proj2 (proj2
           (@data_loader_first_accepted pandas_example "/home/u"
              home_no_match "superstore.csv")))).
  exact home_no_match_has_no_superstore.
Defined.

(** C2 as written fails twice.  With a single superstore.csv that has no
    "Order Date" column the loader raises NotFound although a file of
    that name exists; and when the first superstore.csv of the walk has
    no such column, the table returned is not that of the first match but
    of a later one. *)
Lemma data_loader_not_found_though_file_exists :
  (@data_loader pandas_example "/home/u" home_sales_only "superstore.csv"
     = inl (NotFound (not_found_message "superstore.csv" "/home/u")) /\
   file_under "superstore.csv" (inr sales_only_csv) home_sales_only) /\
  (hd_error (candidates "superstore.csv" (walk "/home/u" home_two_matches))
     = Some (inr sales_only_csv) /\
   exists df,
     @data_loader pandas_example "/home/u" home_two_matches "superstore.csv" = inr df /\
     @load_file pandas_example (inr orders_csv) = inr (Some df) /\
     @load_file pandas_example (inr sales_only_csv) = inr None).
Proof.
  split; [split|split].
  - reflexivity.
  - apply file_here. reflexivity.
  - reflexivity.
  - eexists. split; [vm_compute; reflexivity|]. split; reflexivity.
Qed.

(** C10. A table comes back from the loader only with an "Order Date"
    column.  A directory whose file of the target name parses to a table
    without that column is passed over and the loop goes on with the
    remaining directories; and when every file of that name under the
    root is such a file, the loader raises NotFound, whether or not files
    of that name exist. *)
Theorem data_loader_requires_order_date `{P : Pandas}
  (ruta_base : string) (home : tree) (nombre_archivo : string) :
  (forall df, data_loader ruta_base home nombre_archivo = inr df ->
              has_column "Order Date" df = true) /\
  (forall root dirs files rest f,
      file_named nombre_archivo files = Some f -> passed_over f ->
      search nombre_archivo ruta_base ((root, dirs, files) :: rest)
        = search nombre_archivo ruta_base rest) /\
  ((forall f, file_under nombre_archivo f home -> passed_over f) ->
   data_loader ruta_base home nombre_archivo
     = inl (NotFound (not_found_message nombre_archivo ruta_base))).
Proof.
  split; [|split].
  - unfold data_loader. rewrite search_candidates.
    apply first_accepted_has_order_date.
  - intros root dirs files rest f Hf Hp. simpl.
    now rewrite Hf, (load_file_passed_over f Hp).
  - intros H. unfold data_loader. rewrite search_candidates.
    apply first_accepted_not_found. apply Forall_forall.
    intros f Hf. apply H. now apply candidates_file_under in Hf.
Qed.

Lemma home_sales_only_files (f : File) :
  file_under "superstore.csv" f home_sales_only -> passed_over f.
Proof.
  intros H. inversion H as [? ? Hf | ? ? d sub Hd _]; subst.
  - injection Hf as <-. exists sales_only_csv. split; reflexivity.
  - contradiction.
Qed.

Lemma data_loader_requires_order_date_witness :
  file_under "superstore.csv" (inr sales_only_csv) home_sales_only /\
  @data_loader pandas_example "/home/u" home_sales_only "superstore.csv"
    = inl (NotFound (not_found_message "superstore.csv" "/home/u")).
Proof.
  split.
  - apply file_here. reflexivity.
  - apply (proj2 (proj2 (@data_loader_requires_order_date pandas_example
                           "/home/u" home_sales_only "superstore.csv"))).
    exact home_sales_only_files.
Defined.

(** ** Type coercion, column by column *)

Section Coercion.
Context `{P : Pandas}.

Lemma coerce_column_coerced (s : Series) : coerce_column s = inr (coerced s).
Proof.
  unfold coerced. destruct (coerce_column_total s) as [s' ->]. reflexivity.
Qed.

Lemma setitem_map (col : string) (v : Series) (df : RawFrame) :
  NoDup (map fst df) -> In col (map fst df) ->
  setitem col v df
  = map (fun c => if String.eqb (fst c) col then (fst c, v) else c) df.
Proof.
  induction df as [|[l s0] df IH]; simpl; [contradiction|].
  intros Hnd Hin. inversion Hnd as [|? ? Hnotin Hnd']; subst.
  destruct (String.eqb_spec l col) as [->|Hne].
  - f_equal. etransitivity; [symmetry; apply map_id|]. apply map_ext_in.
    intros [l' s'] Hc. simpl.
    destruct (String.eqb_spec l' col) as [->|]; [|reflexivity].
    exfalso. apply Hnotin. apply in_map_iff. now exists (col, s').
  - f_equal. apply IH; trivial. destruct Hin; [contradiction | assumption].
Qed.

Lemma getitem_unique (col : string) (s : Series) (df : RawFrame) (c : string * Series) :
  NoDup (map fst df) -> getitem col df = inr s -> In c df -> fst c = col ->
  snd c = s.
Proof.
  induction df as [|[l s0] df IH]; simpl; [contradiction|].
  intros Hnd Hg Hin Hc. inversion Hnd as [|? ? Hnotin Hnd']; subst.
  destruct (String.eqb_spec l (fst c)) as [->|Hne].
  - injection Hg as <-. destruct Hin as [<-|Hin]; [reflexivity|].
    exfalso. apply Hnotin. apply in_map_iff. now exists c.
  - destruct Hin as [<-|Hin]; [contradiction|]. now apply IH.
Qed.

Lemma clean_fold_columns (cols : list string) (df : RawFrame) :
  NoDup (map fst df) -> NoDup cols -> incl cols (map fst df) ->
  fold_left clean_column cols (inr df)
  = inr (map (fun c => if existsb (String.eqb (fst c)) cols
                       then (fst c, coerced (snd c)) else c) df).
Proof.
  revert df. induction cols as [|col cols IH]; intros df Hnd Hcols Hincl;
    cbn [fold_left].
  - simpl. now rewrite map_id.
  - inversion Hcols as [|? ? Hnotin Hcols']; subst.
    assert (Hin : In col (map fst df)) by (apply Hincl; now left).
    destruct (clean_column_total df col Hin) as [s [s' [Hg [Hs' ->]]]].
    rewrite coerce_column_coerced in Hs'. injection Hs' as <-.
    rewrite (setitem_map col (coerced s) df Hnd Hin).
    rewrite IH; trivial.
    + f_equal. rewrite map_map. apply map_ext_in. intros c Hc. simpl.
      destruct (String.eqb_spec (fst c) col) as [E|E]; simpl.
      * rewrite (getitem_unique col s df c Hnd Hg Hc E).
        replace (existsb (String.eqb (fst c)) cols) with false; [reflexivity|].
        symmetry. apply not_true_is_false. intros Hex.
        apply existsb_eqb_In in Hex. congruence.
      * reflexivity.
    + rewrite map_map. erewrite map_ext; [exact Hnd|].
      intros c. simpl. now destruct (String.eqb (fst c) col).
    + rewrite map_map. erewrite map_ext.
      * intros c Hc. apply Hincl. right. exact Hc.
      * intros c. simpl. now destruct (String.eqb (fst c) col).
Qed.

Lemma data_cleaning_columns (df : RawFrame) :
  NoDup (map fst df) ->
  data_cleaning df
  = inr (map (fun c => (fst c, coerced (snd c))) (drop_duplicates df)).
Proof.
  intros Hnd. unfold data_cleaning.
  assert (Hnd' : NoDup (map fst (drop_duplicates df)))
    by now rewrite drop_duplicates_labels.
  rewrite clean_fold_columns; trivial; [|apply incl_refl].
  f_equal. apply map_ext_in. intros c Hc.
  replace (existsb (String.eqb (fst c)) (map fst (drop_duplicates df))) with true;
    [reflexivity|].
  symmetry. apply existsb_eqb_In. now apply in_map.
Qed.
End Coercion.

(** C7. [data_cleaning] never raises, and puts in place of every column
    of the de-duplicated table the column [coerce_column] computes.  On a
    column of dtype object that is: the column with [$] and [,] removed
    and read as numbers when pandas can read it so; else the column read
    as dates when pandas can read it so; else the column itself,
    unchanged.  Columns of another dtype are left alone.  In particular,
    pandas reading the texts 1200 and 950 as these numbers, the column
    of "$1,200" and "$950" becomes the numbers 1200.0 and 950.0. *)
Theorem type_coercion_order `{P : Pandas} :
  (forall df, exists df', data_cleaning df = inr df' /\ map fst df' = map fst df) /\
  (forall df, NoDup (map fst df) ->
     data_cleaning df
     = inr (map (fun c => (fst c, coerced (snd c))) (drop_duplicates df))) /\
  (forall s, coerce_column s = inr (coerced s)) /\
  (forall s, dtype_of s = object ->
     (forall stripped n,
         str_replace_currency s = inr stripped -> to_numeric stripped = inr n ->
         coerced s = n) /\
     (forall d,
         (forall stripped, str_replace_currency s = inr stripped ->
                           exists e, to_numeric stripped = inl e) ->
         to_datetime s = inr d -> coerced s = d) /\
     ((forall stripped, str_replace_currency s = inr stripped ->
                        exists e, to_numeric stripped = inl e) ->
      (exists e, to_datetime s = inl e) -> coerced s = s)) /\
  (forall s, dtype_of s <> object -> coerced s = s) /\
  (str_replace_currency currency_column
     = inr (mkSeries object [Str "1200"; Str "950"]) /\
   (to_numeric (mkSeries object [Str "1200"; Str "950"])
      = inr (mkSeries int64 [Int 1200; Int 950]) ->
    coerced currency_column = mkSeries int64 [Int 1200; Int 950] /\
    map numeric_value (values (coerced currency_column))
      = [Some f_1200; Some f_950])).
Proof.
  split; [exact data_cleaning_total|].
  split; [exact data_cleaning_columns|].
  split; [exact coerce_column_coerced|].
  split; [|split].
  - intros s Hs. unfold coerced, coerce_column, try_except. rewrite Hs. simpl.
    split; [|split].
    + intros stripped n -> ->. reflexivity.
    + intros d Hnum Hd. destruct (str_replace_currency s) as [e|stripped].
      * now rewrite Hd.
      * destruct (Hnum stripped eq_refl) as [e ->]. now rewrite Hd.
    + intros Hnum [e Hd]. destruct (str_replace_currency s) as [e'|stripped].
      * now rewrite Hd.
      * destruct (Hnum stripped eq_refl) as [e' ->]. now rewrite Hd.
  - intros s Hs. unfold coerced, coerce_column.
    destruct (dtype_of s); try reflexivity. congruence.
  - split; [reflexivity|]. intros Hnum.
    assert (E : coerced currency_column = mkSeries int64 [Int 1200; Int 950]).
    { unfold coerced, coerce_column, try_except.
      change (str_replace_currency currency_column)
        with (@inr exn Series (mkSeries object [Str "1200"; Str "950"])).
      simpl. now rewrite Hnum. }
    rewrite E. split; reflexivity.
Qed.

Lemma type_coercion_order_witness :
  @coerced pandas_example currency_column = mkSeries int64 [Int 1200; Int 950] /\
  map numeric_value (values (@coerced pandas_example currency_column))
    = [Some f_1200; Some f_950].
Proof.
  apply (proj2 (proj2 (proj2 (proj2 (proj2 (proj2
           (@type_coercion_order pandas_example))))))).
  reflexivity.
Defined.

(** ** Categorical columns *)

Lemma fillna_text (v : cell) (cells : list cell) :
  Forall (fun c => is_text c = true) cells ->
  map (fun c => if is_missing c then v else c) cells = cells.
Proof.
  induction 1 as [|c cells Hc _ IH]; simpl; [reflexivity|].
  rewrite IH. now destruct c.
Qed.

(** Line 68 leaves no missing value (and so no NaN) in a numeric column:
    this is where the discounts and profits of the dataset get to be
    numbers. *)
Lemma normalize_numeric_no_missing `{P : Pandas} (s : Series) :
  Forall (fun c => is_missing c = false) (values (normalize_numeric s)).
Proof.
  unfold normalize_numeric, fillna. simpl. apply Forall_forall.
  intros c Hc. apply in_map_iff in Hc. destruct Hc as [c0 [<- _]].
  destruct (is_missing c0) eqn:E; [reflexivity | exact E].
Qed.

(** Line 72 on one column: [fillna] finds every value already turned
    into text, a missing one into the text nan. *)
Lemma normalize_categorical_astype `{P : Pandas} (s : Series) :
  normalize_categorical s = astype_str s /\
  Forall (fun c => is_text c = true) (values (normalize_categorical s)) /\
  (forall i, nth_error (values s) i = Some NA ->
             nth_error (values (normalize_categorical s)) i = Some (Str "nan")).
Proof.
  assert (Ht : Forall (fun c => is_text c = true) (values (astype_str s))).
  { simpl. apply Forall_forall. intros c Hc. apply in_map_iff in Hc.
    destruct Hc as [c0 [<- _]]. reflexivity. }
  assert (E : normalize_categorical s = astype_str s).
  { unfold normalize_categorical, fillna. rewrite (fillna_text _ _ Ht). reflexivity. }
  rewrite E. split; [reflexivity|]. split; [exact Ht|].
  intros i Hi. simpl. rewrite nth_error_map, Hi. reflexivity.
Qed.

Lemma getitem_has_column (label : string) (df : RawFrame) (s : Series) :
  getitem label df = inr s -> has_column label df = true.
Proof.
  induction df as [|[l s0] df IH]; simpl; [discriminate|].
  destruct (String.eqb l label); simpl; [reflexivity | exact IH].
Qed.

Lemma has_column_getitem (label : string) (df : RawFrame) :
  has_column label df = true -> exists s, getitem label df = inr s.
Proof. intros H. apply getitem_In. now apply has_column_In. Qed.

Lemma normalize_fold_other (f : Series -> Series) (cols : list string)
  (df df' : RawFrame) (col : string) :
  ~ In col cols ->
  fold_left (normalize_column f) cols (inr df) = inr df' ->
  getitem col df' = getitem col df.
Proof.
  revert df. induction cols as [|c cols IH]; intros df Hn; cbn [fold_left].
  - intros [= <-]. reflexivity.
  - unfold normalize_column at 2. destruct (has_column c df) eqn:E.
    + destruct (has_column_getitem c df E) as [sc ->]. intros H.
      rewrite (IH _ (fun Hc => Hn (or_intror Hc)) H).
      apply getitem_setitem_other. intros ->. apply Hn. now left.
    + apply IH. intros Hc. apply Hn. now right.
Qed.

Lemma normalize_fold_at (f : Series -> Series) (cols : list string)
  (df df' : RawFrame) (col : string) (s : Series) :
  NoDup cols -> In col cols -> getitem col df = inr s ->
  fold_left (normalize_column f) cols (inr df) = inr df' ->
  getitem col df' = inr (f s).
Proof.
  revert df. induction cols as [|c cols IH]; intros df Hnd Hin Hs; [contradiction|].
  cbn [fold_left]. inversion Hnd as [|? ? Hnotin Hnd']; subst.
  unfold normalize_column at 2. destruct (String.eqb_spec c col) as [->|Hne].
  - rewrite (getitem_has_column col df s Hs), Hs. intros H.
    rewrite (normalize_fold_other f cols _ df' col Hnotin H).
    apply getitem_setitem.
  - destruct Hin as [Hin|Hin]; [contradiction|].
    destruct (has_column c df) eqn:E.
    + destruct (has_column_getitem c df E) as [sc ->].
      apply IH; trivial. rewrite getitem_setitem_other; [exact Hs | congruence].
    + now apply IH.
Qed.

Section LoadedColumns.
Context `{P : Pandas}.
Variables cleaned df : RawFrame.
Hypothesis Hnorm : normalize cleaned = inr df.

Lemma normalize_steps :
  exists s0 df1,
    getitem "Order Date" cleaned = inr s0 /\
    fold_left (normalize_column normalize_numeric) numeric_columns
      (inr (setitem "Order Date" (to_datetime_coerce s0) cleaned)) = inr df1 /\
    fold_left (normalize_column normalize_categorical) categorical_columns (inr df1)
      = inr df.
Proof.
  unfold normalize in Hnorm.
  destruct (getitem "Order Date" cleaned) as [e|s0]; [discriminate|].
  destruct (fold_left (normalize_column normalize_numeric) numeric_columns _)
    as [e|df1] eqn:E1; [discriminate|].
  exists s0, df1. repeat split; trivial.
Qed.

Lemma NoDup_categorical_columns : NoDup categorical_columns.
Proof.
  unfold categorical_columns.
  repeat (constructor; [simpl; intuition discriminate|]). constructor.
Qed.

Lemma NoDup_numeric_columns : NoDup numeric_columns.
Proof.
  unfold numeric_columns.
  repeat (constructor; [simpl; intuition discriminate|]). constructor.
Qed.

Lemma categorical_not_numeric (col : string) :
  In col categorical_columns -> col <> "Order Date" /\ ~ In col numeric_columns.
Proof.
  unfold categorical_columns, numeric_columns. simpl.
  intros H. repeat (destruct H as [<-|H]; [split; intuition discriminate|]).
  contradiction.
Qed.

Lemma numeric_not_categorical (col : string) :
  In col numeric_columns -> col <> "Order Date" /\ ~ In col categorical_columns.
Proof.
  unfold categorical_columns, numeric_columns. simpl.
  intros H. repeat (destruct H as [<-|H]; [split; intuition discriminate|]).
  contradiction.
Qed.

Lemma normalize_categorical_column (col : string) (s : Series) :
  In col categorical_columns -> getitem col cleaned = inr s ->
  getitem col df = inr (normalize_categorical s).
Proof.
  intros Hin Hs. destruct normalize_steps as [s0 [df1 [_ [H1 H2]]]].
  destruct (categorical_not_numeric col Hin) as [Hod Hnum].
  apply (normalize_fold_at _ _ _ _ col s NoDup_categorical_columns Hin) in H2;
    [exact H2|].
  rewrite (normalize_fold_other _ _ _ _ col Hnum H1).
  rewrite getitem_setitem_other; [exact Hs | exact Hod].
Qed.

Lemma normalize_numeric_column (col : string) (s : Series) :
  In col numeric_columns -> getitem col cleaned = inr s ->
  getitem col df = inr (normalize_numeric s).
Proof.
  intros Hin Hs. destruct normalize_steps as [s0 [df1 [_ [H1 H2]]]].
  destruct (numeric_not_categorical col Hin) as [Hod Hcat].
  rewrite (normalize_fold_other _ _ _ _ col Hcat H2).
  apply (normalize_fold_at _ _ _ _ col s NoDup_numeric_columns Hin) in H1;
    [exact H1|].
  rewrite getitem_setitem_other; [exact Hs | exact Hod].
Qed.
End LoadedColumns.

(** What the loader returns went through cleaning and normalisation. *)
Lemma data_loader_returns_normalized `{P : Pandas}
  (ruta_base : string) (home : tree) (nombre_archivo : string) (df : RawFrame) :
  data_loader ruta_base home nombre_archivo = inr df ->
  exists raw cleaned,
    file_under nombre_archivo (inr raw) home /\
    data_cleaning raw = inr cleaned /\ normalize cleaned = inr df /\
    map fst df = map fst cleaned.
Proof.
  unfold data_loader. rewrite search_candidates. intros H.
  apply first_accepted_loaded in H.
  destruct H as [pre [f [post [raw [cleaned [Hc [_ [[-> Hod] [Hcl Hn]]]]]]]]].
  exists raw, cleaned. split; [|split; [assumption|split; [assumption|]]].
  - apply (candidates_file_under nombre_archivo (inr raw) home ruta_base).
    rewrite Hc. apply in_or_app. right. now left.
  - destruct (data_cleaning_total raw) as [cleaned' [Hcl' Hl]].
    assert (cleaned' = cleaned) by congruence. subst cleaned'.
    assert (Hoc : has_column "Order Date" cleaned = true)
      by now rewrite (has_column_labels _ _ _ Hl).
    destruct (normalize_total cleaned Hoc) as [df' [Hn' Hl']]. congruence.
Qed.

(** The numeric business columns of a returned table hold no missing
    value: the discounts and profits the filter and the aggregates read
    are numbers. *)
Lemma loaded_numeric_columns `{P : Pandas}
  (ruta_base : string) (home : tree) (nombre_archivo : string)
  (df : RawFrame) (col : string) (s : Series) :
  data_loader ruta_base home nombre_archivo = inr df ->
  In col numeric_columns -> getitem col df = inr s ->
  Forall (fun c => is_missing c = false) (values s).
Proof.
  intros Hload Hin Hs.
  destruct (data_loader_returns_normalized _ _ _ _ Hload)
    as [raw [cleaned [_ [_ [Hn Hl]]]]].
  assert (Hc : has_column col cleaned = true).
  { rewrite <- (has_column_labels col cleaned df Hl).
    now apply getitem_has_column with s. }
  destruct (has_column_getitem col cleaned Hc) as [s0 Hs0].
  rewrite (normalize_numeric_column cleaned df Hn col s0 Hin Hs0) in Hs.
  injection Hs as <-. apply normalize_numeric_no_missing.
Qed.

(** C3 fails on the code.  In a table returned by the loader every
    categorical column that is present is text throughout, but it is the
    cleaned column put through [astype(str)] alone: [astype(str)] has
    already turned a missing value into the text nan when [fillna] runs,
    so [fillna("Unknown")] finds nothing to fill and a missing value reads
    nan, not Unknown. *)
Theorem loaded_categorical_missing_reads_nan `{P : Pandas}
  (ruta_base : string) (home : tree) (nombre_archivo : string)
  (df : RawFrame) (col : string) :
  data_loader ruta_base home nombre_archivo = inr df ->
  In col categorical_columns -> has_column col df = true ->
  exists raw cleaned before after,
    file_under nombre_archivo (inr raw) home /\
    data_cleaning raw = inr cleaned /\
    getitem col cleaned = inr before /\
    getitem col df = inr after /\
    after = astype_str before /\
    Forall (fun c => is_text c = true) (values after) /\
    (forall i, nth_error (values before) i = Some NA ->
               nth_error (values after) i = Some (Str "nan")).
Proof.
  intros Hload Hin Hcol.
  destruct (data_loader_returns_normalized _ _ _ _ Hload)
    as [raw [cleaned [Hunder [Hcl [Hn Hl]]]]].
  assert (Hc : has_column col cleaned = true)
    by now rewrite <- (has_column_labels col cleaned df Hl).
  destruct (has_column_getitem col cleaned Hc) as [before Hb].
  pose proof (normalize_categorical_column cleaned df Hn col before Hin Hb) as Ha.
  destruct (normalize_categorical_astype before) as [E [Ht Hnan]].
  exists raw, cleaned, before, (normalize_categorical before).
  repeat split; trivial.
Qed.

Lemma loaded_categorical_missing_reads_nan_witness :
  exists raw cleaned before after,
    file_under "superstore.csv" (inr raw) home_orders /\
    @data_cleaning pandas_example raw = inr cleaned /\
    getitem "Region" cleaned = inr before /\
    getitem "Region" loaded_orders = inr after /\
    after = @astype_str pandas_example before /\
    Forall (fun c => is_text c = true) (values after) /\
    (forall i, nth_error (values before) i = Some NA ->
               nth_error (values after) i = Some (Str "nan")).
Proof.
  apply (@loaded_categorical_missing_reads_nan pandas_example "/home/u"
           home_orders "superstore.csv" loaded_orders "Region").
  - vm_compute. reflexivity.
  - simpl. tauto.
  - reflexivity.
Defined.

(** The failing input run through the loader: the region left empty in
    the file comes back as the text nan. *)
Lemma data_loader_region_nan :
  @data_loader pandas_example "/home/u" home_orders "superstore.csv"
    = inr loaded_orders /\
  getitem "Region" orders_csv = inr (mkSeries object [Str "East"; NA]) /\
  getitem "Region" loaded_orders = inr (mkSeries object [Str "East"; Str "nan"]).
Proof. split; [vm_compute; reflexivity | split; reflexivity]. Qed.

(** ** Sorting *)

Section Sorting.
Context {A : Type} (leb : A -> A -> bool).
Hypothesis leb_total : forall a b, leb a b = true \/ leb b a = true.
Hypothesis leb_trans : forall a b c, leb a b = true -> leb b c = true -> leb a c = true.

Lemma insert_by_sorted (x : A) (l : list A) :
  StronglySorted (fun a b => leb a b = true) l ->
  StronglySorted (fun a b => leb a b = true) (insert_by leb x l).
Proof.
  induction 1 as [|y l Hl IH Hy]; simpl.
  - repeat constructor.
  - destruct (leb x y) eqn:E.
    + constructor; [now constructor|]. constructor; [assumption|].
      rewrite Forall_forall in *. intros z Hz. eauto.
    + constructor; [assumption|]. rewrite Forall_forall in *.
      intros z Hz. apply In_insert_by in Hz. destruct Hz as [-> | Hz]; [|auto].
      destruct (leb_total x y); congruence.
Qed.

Lemma sort_by_sorted (l : list A) :
  StronglySorted (fun a b => leb a b = true) (sort_by leb l).
Proof.
  unfold sort_by. induction l as [|x l IH]; simpl; [constructor|].
  now apply insert_by_sorted.
Qed.
End Sorting.

Lemma insert_by_ext_in {A : Type} (leb1 leb2 : A -> A -> bool) (x : A) (l : list A) :
  (forall b, In b l -> leb1 x b = leb2 x b) ->
  insert_by leb1 x l = insert_by leb2 x l.
Proof.
  induction l as [|y l IH]; simpl; intros H; [reflexivity|].
  rewrite (H y (or_introl eq_refl)). destruct (leb2 x y); [reflexivity|].
  f_equal. apply IH. auto.
Qed.

Lemma sort_by_ext_in {A : Type} (leb1 leb2 : A -> A -> bool) (l : list A) :
  (forall a b, In a l -> In b l -> leb1 a b = leb2 a b) ->
  sort_by leb1 l = sort_by leb2 l.
Proof.
  unfold sort_by. induction l as [|x l IH]; simpl; intros H; [reflexivity|].
  rewrite IH by auto. apply insert_by_ext_in.
  intros b Hb. apply In_sort_by in Hb. auto.
Qed.

Lemma insert_by_map {A B : Type} (leb : B -> B -> bool) (f : A -> B) (x : A) (l : list A) :
  insert_by leb (f x) (map f l) = map f (insert_by (fun a b => leb (f a) (f b)) x l).
Proof.
  induction l as [|y l IH]; simpl; [reflexivity|].
  destruct (leb (f x) (f y)); simpl; [reflexivity|]. now rewrite IH.
Qed.

Lemma sort_by_map {A B : Type} (leb : B -> B -> bool) (f : A -> B) (l : list A) :
  sort_by leb (map f l) = map f (sort_by (fun a b => leb (f a) (f b)) l).
Proof.
  unfold sort_by. induction l as [|x l IH]; simpl; [reflexivity|].
  now rewrite IH, insert_by_map.
Qed.

Lemma sort_by_length {A : Type} (leb : A -> A -> bool) (l : list A) :
  List.length (sort_by leb l) = List.length l.
Proof.
  unfold sort_by. induction l as [|x l IH]; simpl; [reflexivity|].
  rewrite <- IH. generalize (fold_right (insert_by leb) [] l) as s.
  induction s as [|y s IHs]; simpl; [reflexivity|].
  destruct (leb x y); simpl; [reflexivity|]. now rewrite IHs.
Qed.

Lemma In_firstn {A : Type} (n : nat) (l : list A) (a : A) :
  In a (firstn n l) -> In a l.
Proof.
  intros H. rewrite <- (firstn_skipn n l). apply in_or_app. now left.
Qed.

Lemma In_skipn {A : Type} (n : nat) (l : list A) (a : A) :
  In a (skipn n l) -> In a l.
Proof.
  intros H. rewrite <- (firstn_skipn n l). apply in_or_app. now right.
Qed.

Lemma firstn_sorted {A : Type} (R : A -> A -> Prop) (n : nat) (l : list A) :
  StronglySorted R l ->
  StronglySorted R (firstn n l) /\
  forall a b, In a (firstn n l) -> In b (skipn n l) -> R a b.
Proof.
  intros H. revert n. induction H as [|x l Hl IH Hx]; intros n.
  - rewrite firstn_nil, skipn_nil. split; [constructor | contradiction].
  - destruct n as [|n]; simpl.
    + split; [constructor | contradiction].
    + destruct (IH n) as [Hs Hle]. rewrite Forall_forall in Hx. split.
      * constructor; [assumption|]. apply Forall_forall. intros a Ha.
        apply Hx. eapply In_firstn; eauto.
      * intros a b [<- | Ha] Hb; [|auto].
        apply Hx. eapply In_skipn; eauto.
Qed.

(** The order of [sort_values] is the order of positions, NaN last. *)
Lemma na_last_leb_key (a b : float) :
  na_last_leb a b = true <-> key_le (fkey a) (fkey b).
Proof.
  unfold na_last_leb. destruct (is_nan b) eqn:Eb.
  - destruct b; try discriminate. split; [|reflexivity]. intros _.
    destruct a as [[]|[]| |[] m e]; simpl; lia.
  - destruct (is_nan a) eqn:Ea.
    + destruct a; try discriminate. split; [discriminate|].
      destruct b as [[]|[]| |[] m e]; simpl in *; try discriminate; lia.
    + now apply fleb_key.
Qed.

Lemma total_leb_total (r1 r2 : string * list float) :
  total_leb r1 r2 = true \/ total_leb r2 r1 = true.
Proof.
  unfold total_leb. rewrite !na_last_leb_key.
  destruct (fkey (row_total r1)) as [[a1 b1] c1], (fkey (row_total r2)) as [[a2 b2] c2];
    simpl; lia.
Qed.

Lemma total_leb_trans (r1 r2 r3 : string * list float) :
  total_leb r1 r2 = true -> total_leb r2 r3 = true -> total_leb r1 r3 = true.
Proof.
  unfold total_leb. rewrite !na_last_leb_key. apply key_le_trans.
Qed.

(** ** Grouping by state and region *)

Lemma pair_eqb_eq (a b : string * string) : pair_eqb a b = true <-> a = b.
Proof.
  destruct a as [a1 a2], b as [b1 b2]. unfold pair_eqb. simpl.
  rewrite andb_true_iff, !String.eqb_eq. split; [intros [-> ->] | intros [= -> ->]]; auto.
Qed.

Lemma lookup_key_map (F : string * string -> float) (k : string * string)
  (keys : list (string * string)) :
  lookup_key k (map (fun k' => (k', F k')) keys)
  = if existsb (fun k' => pair_eqb k' k) keys then Some (F k) else None.
Proof.
  induction keys as [|k' keys IH]; simpl; [reflexivity|].
  destruct (pair_eqb k' k) eqn:E; simpl; [|exact IH].
  apply pair_eqb_eq in E. now subst.
Qed.

Lemma group_keys_In (df : DataFrame) (k : string * string) :
  In k (sort_by pair_leb (dedup pair_eqb (map state_region df))) <->
  In k (map state_region df).
Proof. rewrite In_sort_by. apply In_dedup. apply pair_eqb_eq. Qed.

Lemma group_rows_nil (df : DataFrame) (st rg : string) :
  group_rows df st rg = [] <-> ~ In (st, rg) (map state_region df).
Proof.
  unfold group_rows. split.
  - intros H Hin. apply in_map_iff in Hin. destruct Hin as [r [Hk Hr]].
    assert (Hf : In r (filter (fun r => pair_eqb (State r, Region r) (st, rg)) df)).
    { apply filter_In. split; [assumption|]. apply pair_eqb_eq. exact Hk. }
    rewrite H in Hf. contradiction.
  - intros H. destruct (filter _ df) as [|r l] eqn:E; [reflexivity|]. exfalso.
    assert (Hr : In r (r :: l)) by now left. rewrite <- E in Hr.
    apply filter_In in Hr. destruct Hr as [Hr Hk]. apply pair_eqb_eq in Hk.
    apply H. apply in_map_iff. now exists r.
Qed.

Lemma unstack_cell (df : DataFrame) (st rg : string) :
  fillna0 (match lookup_key (st, rg) (groupby_state_region df) with
           | Some v => v
           | None => S754_nan
           end)
  = pivot_cell df st rg.
Proof.
  unfold groupby_state_region.
  rewrite (lookup_key_map
             (fun k => col_sum (map Profit
                          (filter (fun r => pair_eqb (State r, Region r) k) df)))).
  unfold pivot_cell. fold (group_rows df st rg).
  destruct (existsb (fun k' => pair_eqb k' (st, rg)) _) eqn:E.
  - apply existsb_exists in E. destruct E as [k [Hk He]].
    apply pair_eqb_eq in He. subst k. apply group_keys_In in Hk.
    destruct (group_rows df st rg) eqn:G; [|reflexivity].
    apply group_rows_nil in G. contradiction.
  - destruct (group_rows df st rg) eqn:G; [reflexivity|]. exfalso.
    assert (Hin : In (st, rg) (map state_region df)).
    { assert (Hr : In r (group_rows df st rg)) by (rewrite G; now left).
      apply filter_In in Hr. destruct Hr as [Hr Hk]. apply pair_eqb_eq in Hk.
      apply in_map_iff. now exists r. }
    apply group_keys_In in Hin.
    assert (Hex : existsb (fun k' => pair_eqb k' (st, rg))
                    (sort_by pair_leb (dedup pair_eqb (map state_region df))) = true).
    { apply existsb_exists. exists (st, rg). split; [assumption|]. now apply pair_eqb_eq. }
    unfold state_region in Hex. congruence.
Qed.

Lemma pivot_columns_In (df : DataFrame) (rg : string) :
  In rg (pivot_columns df) <-> In rg (map Region df).
Proof.
  unfold pivot_columns, groupby_state_region.
  rewrite In_sorted, In_unique, map_map. simpl. rewrite !in_map_iff. split.
  - intros [k [<- Hk]]. apply group_keys_In in Hk. apply in_map_iff in Hk.
    destruct Hk as [r [<- Hr]]. now exists r.
  - intros [r [<- Hr]]. exists (state_region r). split; [reflexivity|].
    apply group_keys_In. now apply in_map.
Qed.

Lemma pivot_index_In (df : DataFrame) (st : string) :
  In st (pivot_index df) <-> In st (map State df).
Proof.
  unfold pivot_index, groupby_state_region.
  rewrite In_sorted, In_unique, map_map. simpl. rewrite !in_map_iff. split.
  - intros [k [<- Hk]]. apply group_keys_In in Hk. apply in_map_iff in Hk.
    destruct Hk as [r [<- Hr]]. now exists r.
  - intros [r [<- Hr]]. exists (state_region r). split; [reflexivity|].
    apply group_keys_In. now apply in_map.
Qed.

Lemma unstack_filled (df : DataFrame) :
  table_fillna0 (unstack (groupby_state_region df))
  = mkTable (pivot_columns df)
      (map (fun st => (st, map (pivot_cell df st) (pivot_columns df)))
           (pivot_index df)).
Proof.
  unfold table_fillna0, unstack. simpl. fold (pivot_columns df) (pivot_index df).
  f_equal. rewrite map_map. apply map_ext. intros st. simpl. f_equal.
  rewrite map_map. apply map_ext. intros rg. apply unstack_cell.
Qed.

(** ** The pivot when no region is called "Total" *)

Lemma index_of_None (name : string) (cols : list string) :
  ~ In name cols -> index_of name cols = None.
Proof.
  induction cols as [|c cols IH]; simpl; [reflexivity|]. intros H.
  destruct (String.eqb_spec c name) as [->|Hne]; [exfalso; auto|].
  rewrite IH by tauto. reflexivity.
Qed.

Lemma index_of_app_last (name : string) (cols : list string) :
  ~ In name cols -> index_of name (cols ++ [name]) = Some (List.length cols).
Proof.
  induction cols as [|c cols IH]; simpl; intros H.
  - now rewrite String.eqb_refl.
  - destruct (String.eqb_spec c name) as [->|Hne]; [exfalso; auto|].
    rewrite IH by tauto. reflexivity.
Qed.

Lemma remove_nth_last {A : Type} (l : list A) (x : A) :
  remove_nth (List.length l) (l ++ [x]) = l.
Proof. induction l as [|y l IH]; simpl; [reflexivity | now rewrite IH]. Qed.

Lemma nth_last {A : Type} (l : list A) (x d : A) :
  nth (List.length l) (l ++ [x]) d = x.
Proof. induction l as [|y l IH]; simpl; [reflexivity | exact IH]. Qed.

Lemma combine_map_self {A B C : Type} (h : A * B -> C) (f : A -> B) (l : list A) :
  map h (combine l (map f l)) = map (fun x => h (x, f x)) l.
Proof. induction l as [|x l IH]; simpl; [reflexivity | now rewrite IH]. Qed.

Section PivotShape.
Variable df : DataFrame.
Hypothesis no_Total : ~ In "Total" (map Region df).

Let cols := pivot_columns df.
Let rows0 := map (fun st => (st, map (pivot_cell df st) cols)) (pivot_index df).
Let ext (r : string * list float) : string * list float :=
  (fst r, snd r ++ [row_total r]).

Lemma rows0_width (r : string * list float) :
  In r rows0 -> List.length (snd r) = List.length cols.
Proof.
  subst rows0. intros H. apply in_map_iff in H. destruct H as [st [<- _]].
  simpl. apply length_map.
Qed.

Lemma cols_no_Total : ~ In "Total" cols.
Proof. subst cols. now rewrite pivot_columns_In. Qed.

Lemma pivot_with_totals :
  set_column "Total" (row_sums (mkTable cols rows0)) (mkTable cols rows0)
  = mkTable (cols ++ ["Total"]) (map ext rows0).
Proof.
  unfold set_column, row_sums. simpl.
  rewrite (index_of_None _ _ cols_no_Total).
  f_equal. apply (combine_map_self
                    (fun p => (fst (fst p), snd (fst p) ++ [snd p]))
                    (fun r => col_sum (snd r))).
Qed.

Lemma pivot_sorted_by_total :
  sort_values "Total" (mkTable (cols ++ ["Total"]) (map ext rows0))
  = Some (mkTable (cols ++ ["Total"]) (map ext (sort_by total_leb rows0))).
Proof.
  unfold sort_values. simpl.
  rewrite (index_of_app_last _ _ cols_no_Total). f_equal. f_equal.
  rewrite sort_by_map. f_equal. apply sort_by_ext_in.
  intros a b Ha Hb. unfold cell_at, ext, total_leb. simpl.
  rewrite <- (rows0_width a Ha) at 1. rewrite <- (rows0_width b Hb).
  now rewrite !nth_last.
Qed.

Lemma pivot_totals_dropped :
  drop_column "Total"
    (mkTable (cols ++ ["Total"]) (map ext (sort_by total_leb rows0)))
  = Some (mkTable cols (sort_by total_leb rows0)).
Proof.
  unfold drop_column. simpl.
  rewrite (index_of_app_last _ _ cols_no_Total), remove_nth_last.
  f_equal. f_equal. rewrite map_map.
  etransitivity; [|apply map_id]. apply map_ext_in.
  intros a Ha. apply In_sort_by in Ha. simpl.
  rewrite <- (rows0_width a Ha), remove_nth_last. now destruct a.
Qed.

Lemma pivot_closed_form :
  pivot df = Some (mkTable cols (firstn MAX_STATES (all_pivot_rows df))).
Proof.
  unfold pivot. rewrite unstack_filled. fold cols. fold rows0.
  rewrite pivot_with_totals, pivot_sorted_by_total, pivot_totals_dropped.
  unfold all_pivot_rows. fold cols. fold rows0. unfold head. simpl rows. simpl columns.
  destruct (Nat.ltb_spec MAX_STATES (List.length (sort_by total_leb rows0))) as [Hlt|Hge].
  - reflexivity.
  - now rewrite firstn_all2.
Qed.
End PivotShape.

(** For a view without a region called "Total" the pivot is the matrix
    the specification describes: one column per region of the view, one row per state, the cell
    of a state and a region being the sum of their profits or 0 when the
    pair does not occur, rows in ascending order of their totals, and no
    more than 25 of them, the ones with the lowest totals. *)
Lemma pivot_without_Total_region (df : DataFrame) :
  ~ In "Total" (map Region df) ->
  exists t,
    pivot df = Some t /\
    (forall rg, In rg (columns t) <-> In rg (map Region df)) /\
    (forall r, In r (rows t) ->
       In (fst r) (map State df) /\
       snd r = map (pivot_cell df (fst r)) (columns t)) /\
    (forall st, In st (map State df) ->
       exists cells, In (st, cells) (all_pivot_rows df)) /\
    rows t = firstn MAX_STATES (all_pivot_rows df) /\
    StronglySorted (fun r1 r2 => total_leb r1 r2 = true) (rows t) /\
    (List.length (rows t) <= MAX_STATES)%nat /\
    (forall r r', In r (rows t) -> In r' (skipn MAX_STATES (all_pivot_rows df)) ->
                  total_leb r r' = true).
Proof.
  intros Hno. eexists. split; [apply (pivot_closed_form df Hno)|]. cbn [rows columns].
  pose proof (sort_by_sorted total_leb total_leb_total total_leb_trans
                (map (fun st => (st, map (pivot_cell df st) (pivot_columns df)))
                     (pivot_index df))) as Hs.
  fold (all_pivot_rows df) in Hs.
  destruct (firstn_sorted _ MAX_STATES _ Hs) as [Hfirst Hworst].
  split; [apply pivot_columns_In|].
  split; [|split; [|split; [reflexivity|split; [exact Hfirst|split]]]].
  - intros r Hr. apply In_firstn in Hr. unfold all_pivot_rows in Hr.
    apply In_sort_by in Hr. apply in_map_iff in Hr. destruct Hr as [st [<- Hst]].
    simpl. split; [now apply pivot_index_In | reflexivity].
  - intros st Hst. exists (map (pivot_cell df st) (pivot_columns df)).
    unfold all_pivot_rows. apply In_sort_by. apply in_map_iff. exists st.
    split; [reflexivity|]. now apply pivot_index_In.
  - apply firstn_le_length.
  - exact Hworst.
Qed.

Lemma pivot_without_Total_region_example :
  exists t, pivot two_rows = Some t /\
            columns t = ["East"; "West"] /\
            rows t = [("Utah", [f_zero; of_Z (-50)]); ("Ohio", [of_Z 20; f_zero])].
Proof. eexists. split; [vm_compute; reflexivity|]. split; reflexivity. Qed.

(** ** The aggregation layer on a non-empty view *)

Lemma index_of_setitem_total (vals : list float) (t : Table) :
  exists i, index_of "Total" (columns (set_column "Total" vals t)) = Some i.
Proof.
  unfold set_column. destruct (index_of "Total" (columns t)) as [i|] eqn:E.
  - exists i. exact E.
  - simpl. clear vals. induction (columns t) as [|c cols IH]; simpl in *.
    + now exists O.
    + destruct (String.eqb c "Total"); [discriminate|].
      destruct (index_of "Total" cols); [discriminate|].
      destruct (IH eq_refl) as [i ->]. now exists (S i).
Qed.

Lemma pivot_defined (df : DataFrame) : exists t, pivot df = Some t.
Proof.
  unfold pivot.
  set (t1 := set_column "Total" _ _).
  destruct (index_of_setitem_total
              (row_sums (table_fillna0 (unstack (groupby_state_region df))))
              (table_fillna0 (unstack (groupby_state_region df)))) as [i Hi].
  fold t1 in Hi. unfold sort_values, drop_column. rewrite Hi. cbn [columns].
  rewrite Hi. eauto.
Qed.

Lemma worst_group_defined (key : Row -> string) (df : DataFrame) :
  df <> [] -> exists w, iloc0 (sort_by_profit (groupby_sum key df)) = Some w.
Proof.
  intros Hne. destruct df as [|r df]; [congruence|].
  assert (Hin : In (key r) (sorted (unique (map key (r :: df))))).
  { apply In_sorted, In_unique. now left. }
  unfold iloc0, sort_by_profit, groupby_sum.
  destruct (sort_by _ _) as [|w l] eqn:E; [|now exists w].
  apply (f_equal (@List.length _)) in E. rewrite sort_by_length, length_map in E.
  destruct (sorted _); [contradiction | discriminate].
Qed.

(** On a non-empty view every aggregation of the page is defined and the
    run reaches its end; on an empty one the first row of the grouped
    sums does not exist. *)
Lemma dashboard_completes (df : DataFrame) :
  df <> [] -> fst (run (dashboard df)) = Done tt.
Proof.
  intros Hne. unfold run, dashboard, bind, emit, aggregate.
  destruct (kpis_total df) as [k ->].
  destruct (worst_group_defined Region df Hne) as [wr ->].
  destruct (worst_group_defined SubCategory df Hne) as [ws ->].
  destruct (pivot_defined df) as [t ->].
  reflexivity.
Qed.

Lemma dashboard_on_empty_view : fst (run (dashboard [])) = Raised "IndexError".
Proof. reflexivity. Qed.

(** ** The scenarios of the specification *)

(** Two orders, East with discount 0.1 and West with discount 0.5: with
    every discount allowed the totals are 300 and -30, the mean discount
    0.3, the margin -0.1, the bound 50 and the worst region West. *)
Lemma scenario_all_discounts :
  filtered_view two_rows all_discounts = two_rows /\
  kpis two_rows = Some (mkKPIs (of_Z 300) (of_Z (-30)) f_three_tenths
                          (S754_finite true 7205759403792794 (-56))) /\
  max_abs two_rows = of_Z 50 /\
  iloc0 (sort_by_profit (groupby_sum Region two_rows)) = Some ("West", of_Z (-50)).
Proof. repeat split; vm_compute; reflexivity. Qed.

(** With discounts limited to [0, 0.2] only the East order is left. *)
Lemma scenario_low_discounts :
  map Region (filtered_view two_rows low_discounts) = ["East"] /\
  option_map total_profit (kpis (filtered_view two_rows low_discounts))
    = Some (of_Z 20).
Proof. split; vm_compute; reflexivity. Qed.

(** With no category selected the view is empty and the run stops at the
    warning. *)
Lemma scenario_no_category :
  filtered_view two_rows no_category = [] /\
  run (render_pass two_rows no_category) = (Stopped, [Warning warning_text]).
Proof. split; reflexivity. Qed.

(** ** The pivot when a region is called "Total" *)

(** C8 fails on the code when a region of the view is called "Total":
    the helper column of row totals is stored under that label, takes the
    place of the region's column and is dropped after sorting, so the
    matrix comes out without a column for that region.  Here Ohio has a
    profit of 5 in the region Total and 3 in the region East; the pivot
    has the column East alone. *)
Theorem pivot_loses_region_named_Total :
  In "Total" (map Region total_region_rows) /\
  pivot_cell total_region_rows "Ohio" "Total" = of_Z 5 /\
  columns (table_fillna0 (unstack (groupby_state_region total_region_rows)))
    = ["East"; "Total"] /\
  exists t,
    pivot total_region_rows = Some t /\
    columns t = ["East"] /\
    ~ In "Total" (columns t) /\
    rows t = [("Utah", [of_Z (-3)]); ("Ohio", [of_Z 3])].
Proof.
  split; [now left|]. split; [reflexivity|]. split; [reflexivity|].
  eexists. split; [vm_compute; reflexivity|].
  split; [reflexivity|]. split; [|reflexivity].
  simpl. intros [H|[]]. discriminate H.
Qed.

(** ** The rows of a loaded table *)

Lemma shr_1_nonneg (mrs : shr_record) : 0 <= shr_m mrs -> 0 <= shr_m (shr_1 mrs).
Proof.
  destruct mrs as [m r s]. simpl. destruct m as [|[p|p|]|[p|p|]]; simpl; lia.
Qed.

Lemma iter_pos_shr_1_nonneg (p : positive) (mrs : shr_record) :
  0 <= shr_m mrs -> 0 <= shr_m (iter_pos shr_1 p mrs).
Proof.
  revert mrs. induction p as [p IH|p IH|]; intros mrs H; simpl.
  - apply IH, IH, shr_1_nonneg, H.
  - apply IH, IH, H.
  - apply shr_1_nonneg, H.
Qed.

Lemma shr_fexp_nonneg (m e : Z) (l : location) :
  0 <= m -> 0 <= shr_m (fst (shr_fexp prec emax m e l)).
Proof.
  intros H. unfold shr_fexp, shr.
  assert (H0 : 0 <= shr_m (shr_record_of_loc m l)) by (destruct l as [|[]]; exact H).
  destruct (fexp prec emax (Zdigits2 m + e) - e); simpl; trivial.
  now apply iter_pos_shr_1_nonneg.
Qed.

Lemma round_nearest_even_nonneg (m : Z) (l : location) :
  0 <= m -> 0 <= round_nearest_even m l.
Proof.
  intros H. destruct l as [|[]]; simpl; try lia. destruct (Z.even m); lia.
Qed.

Lemma binary_round_aux_not_nan (sx : bool) (mx ex : Z) (lx : location) :
  0 <= mx -> is_nan (binary_round_aux prec emax sx mx ex lx) = false.
Proof.
  intros H. unfold binary_round_aux.
  pose proof (shr_fexp_nonneg mx ex lx H) as H1.
  destruct (shr_fexp prec emax mx ex lx) as [mrs' e']. simpl in H1.
  pose proof (shr_fexp_nonneg _ e' loc_Exact
                (round_nearest_even_nonneg _ (loc_of_shr_record mrs') H1)) as H2.
  destruct (shr_fexp prec emax _ e' loc_Exact) as [mrs'' e'']. simpl in H2.
  destruct (shr_m mrs'') as [|m|m]; [reflexivity | | lia].
  now destruct (e'' <=? emax - prec).
Qed.

(** An integer converts to a number, never to NaN. *)
Lemma of_Z_not_nan (z : Z) : is_nan (of_Z z) = false.
Proof.
  unfold of_Z, binary_normalize. destruct z as [|m|m]; [reflexivity| |];
    unfold binary_round;
    destruct (shl_align m 0 (fexp prec emax (Z.pos (digits2_pos m) + 0))) as [mz ez];
    apply binary_round_aux_not_nan; lia.
Qed.

Lemma float_cell_not_nan (c : cell) (x : float) :
  float_cell c = Some x -> is_missing c = false -> is_nan x = false.
Proof.
  destruct c; simpl; intros [= <-] H; try discriminate; [apply of_Z_not_nan | exact H].
Qed.

Lemma traverse_In {A B : Type} (f : A -> option B) (l : list A) (l' : list B) (y : B) :
  traverse f l = Some l' -> In y l' -> exists x, In x l /\ f x = Some y.
Proof.
  revert l'. induction l as [|x l IH]; simpl; intros l'.
  - intros [= <-] [].
  - destruct (f x) as [y0|] eqn:E; [|discriminate].
    destruct (traverse f l) as [ys|]; [|discriminate].
    intros [= <-] [<- | Hy].
    + exists x. auto.
    + destruct (IH ys eq_refl Hy) as [x' [Hx' Hf]]. exists x'. auto.
Qed.

Lemma float_column_no_nan (label : string) (df : RawFrame) (s : Series)
  (xs : list float) :
  getitem label df = inr s ->
  Forall (fun c => is_missing c = false) (values s) ->
  float_column label df = Some xs -> no_nan xs.
Proof.
  intros Hs Hm. unfold float_column. rewrite Hs. intros Ht.
  apply Forall_forall. intros x Hx.
  destruct (traverse_In _ _ _ _ Ht Hx) as [c [Hc Hf]].
  rewrite Forall_forall in Hm. eapply float_cell_not_nan; eauto.
Qed.

Lemma rows_of_columns (df : RawFrame) (rows : DataFrame) :
  rows_of df = Some rows ->
  exists sales profit discount,
    float_column "Sales" df = Some sales /\
    float_column "Profit" df = Some profit /\
    float_column "Discount" df = Some discount /\
    incl (map Sales rows) sales /\
    incl (map Profit rows) profit /\
    incl (map Discount rows) discount.
Proof.
  unfold rows_of.
  destruct (text_column "Region" df) as [region|]; [|discriminate].
  destruct (text_column "State" df) as [state|]; [|discriminate].
  destruct (text_column "Category" df) as [category|]; [|discriminate].
  destruct (text_column "Sub-Category" df) as [sub|]; [|discriminate].
  destruct (float_column "Sales" df) as [sales|]; [|discriminate].
  destruct (float_column "Profit" df) as [profit|]; [|discriminate].
  destruct (float_column "Discount" df) as [discount|]; [|discriminate].
  intros [= <-]. exists sales, profit, discount. repeat split; trivial;
    intros x Hx; rewrite map_map in Hx; apply in_map_iff in Hx;
    destruct Hx as [[rg [st [ca [su [sa [pr di]]]]]] [<- Ht]]; simpl;
    do 4 apply in_combine_r in Ht.
  - now apply in_combine_l in Ht.
  - apply in_combine_r in Ht. now apply in_combine_l in Ht.
  - do 2 apply in_combine_r in Ht. exact Ht.
Qed.

Lemma no_nan_incl (xs ys : list float) : incl xs ys -> no_nan ys -> no_nan xs.
Proof.
  unfold no_nan. rewrite !Forall_forall. intros Hi Hy x Hx. apply Hy, Hi, Hx.
Qed.

Lemma float_column_getitem (label : string) (df : RawFrame) (xs : list float) :
  float_column label df = Some xs -> exists s, getitem label df = inr s.
Proof.
  unfold float_column. destruct (getitem label df) as [e|s]; [discriminate|eauto].
Qed.

(** The sales, profits and discounts of a dataset read from a table the
    loader returned are numbers, none of them NaN. *)
Lemma loaded_rows_are_numbers `{P : Pandas}
  (ruta_base : string) (home : tree) (nombre_archivo : string)
  (df : RawFrame) (df_full : DataFrame) :
  data_loader ruta_base home nombre_archivo = inr df ->
  rows_of df = Some df_full ->
  no_nan (map Sales df_full) /\ no_nan (map Profit df_full) /\
  no_nan (map Discount df_full).
Proof.
  intros Hload Hrows.
  destruct (rows_of_columns df df_full Hrows)
    as [sales [profit [discount [Hs [Hp [Hd [Is [Ip Id]]]]]]]].
  assert (Hcol : forall label xs,
             In label numeric_columns -> float_column label df = Some xs -> no_nan xs).
  { intros label xs Hin Hx. destruct (float_column_getitem _ _ _ Hx) as [s Hg].
    apply (float_column_no_nan label df s xs Hg); [|exact Hx].
    exact (loaded_numeric_columns _ _ _ df label s Hload Hin Hg). }
  split; [|split].
  - apply (no_nan_incl _ sales Is). apply (Hcol "Sales"); [simpl; tauto | exact Hs].
  - apply (no_nan_incl _ profit Ip). apply (Hcol "Profit"); [simpl; tauto | exact Hp].
  - apply (no_nan_incl _ discount Id). apply (Hcol "Discount"); [simpl; tauto | exact Hd].
Qed.

(** The default selection on the datasets the loader produces. *)
Lemma default_selection_identity_loaded `{P : Pandas}
  (ruta_base : string) (home : tree) (nombre_archivo : string)
  (df : RawFrame) (df_full : DataFrame) :
  data_loader ruta_base home nombre_archivo = inr df ->
  rows_of df = Some df_full ->
  filtered_view df_full (default_selection df_full) = df_full.
Proof.
  intros Hload Hrows. rewrite filtered_view_filter. apply filter_all_true.
  intros r Hr. apply row_passesb_spec. apply default_selection_passes; [|exact Hr].
  exact (proj2 (proj2 (loaded_rows_are_numbers _ _ _ df df_full Hload Hrows))).
Qed.

Lemma filtered_view_profits_are_numbers `{P : Pandas}
  (ruta_base : string) (home : tree) (nombre_archivo : string)
  (df : RawFrame) (df_full : DataFrame) (sel : Selection) :
  data_loader ruta_base home nombre_archivo = inr df ->
  rows_of df = Some df_full ->
  no_nan (map Profit (filtered_view df_full sel)).
Proof.
  intros Hload Hrows.
  apply no_nan_incl with (map Profit df_full).
  - rewrite filtered_view_filter. intros x Hx. apply in_map_iff in Hx.
    destruct Hx as [r [<- Hr]]. apply filter_In in Hr. apply in_map. tauto.
  - exact (proj1 (proj2 (loaded_rows_are_numbers _ _ _ df df_full Hload Hrows))).
Qed.

(* ===================================================================== *)
(** * Part III. Further properties of the code                             *)
(* ===================================================================== *)

(** ** More on the filter engine (source lines 115-121) *)

Lemma filter_all_false {A : Type} (f : A -> bool) (l : list A) :
  (forall x, In x l -> f x = false) -> filter f l = [].
Proof.
  induction l as [|x l IH]; simpl; intros H; [reflexivity|].
  rewrite (H x (or_introl eq_refl)). apply IH. auto.
Qed.

Lemma filter_twice {A : Type} (f g : A -> bool) (l : list A) :
  filter f (filter g l) = filter (fun x => g x && f x) l.
Proof.
  induction l as [|x l IH]; simpl; [reflexivity|].
  destruct (g x); simpl; [destruct (f x)|]; now rewrite IH.
Qed.

Lemma filter_ext_in_bool {A : Type} (f g : A -> bool) (l : list A) :
  (forall x, In x l -> f x = g x) -> filter f l = filter g l.
Proof.
  induction l as [|x l IH]; simpl; intros H; [reflexivity|].
  rewrite (H x (or_introl eq_refl)), IH; auto.
Qed.

Lemma fleb_true_not_nan (x y : float) :
  fleb x y = true -> is_nan x = false /\ is_nan y = false.
Proof. destruct x, y; simpl; intros H; try discriminate; auto. Qed.

Lemma fleb_chain (x y z : float) :
  fleb x y = true -> fleb y z = true -> fleb x z = true.
Proof.
  intros H1 H2. destruct (fleb_true_not_nan _ _ H1), (fleb_true_not_nan _ _ H2).
  now apply fleb_trans with y.
Qed.

(** X1. A multiselect with nothing selected empties the view: when the
    list of regions, of categories or of sub-categories is empty, no row
    passes the filter, whatever the other widgets say. *)
Theorem empty_selection_set_gives_empty_view (df_full : DataFrame) (sel : Selection) :
  regiones sel = [] \/ categorias sel = [] \/ subcats sel = [] ->
  filtered_view df_full sel = [].
Proof.
  intros H. rewrite filtered_view_filter. apply filter_all_false.
  intros r _. unfold row_passesb.
  destruct H as [-> | [-> | ->]]; simpl; rewrite ?andb_false_r; reflexivity.
Qed.

Lemma empty_selection_set_gives_empty_view_witness :
  filtered_view two_rows no_category = [].
Proof.
  apply (empty_selection_set_gives_empty_view two_rows no_category).
  right. left. reflexivity.
Defined.

(** X2. A discount interval whose lower bound is not below or equal to
    its upper bound (the bounds crossed, or one of them NaN) empties the
    view. *)
Theorem crossed_interval_gives_empty_view (df_full : DataFrame) (sel : Selection) :
  fleb (fst (discount_range sel)) (snd (discount_range sel)) = false ->
  filtered_view df_full sel = [].
Proof.
  intros H. rewrite filtered_view_filter. apply filter_all_false.
  intros r _. destruct (row_passesb sel r) eqn:E; [|reflexivity].
  apply row_passesb_spec in E. destruct E as [_ [_ [_ [Hlo Hhi]]]].
  rewrite (fleb_chain _ _ _ Hlo Hhi) in H. discriminate.
Qed.

Lemma crossed_interval_gives_empty_view_witness :
  filtered_view two_rows crossed_discounts = [].
Proof.
  apply (crossed_interval_gives_empty_view two_rows crossed_discounts).
  reflexivity.
Defined.

(** X3. Filtering twice is filtering by both selections: the order of two
    filters does not matter, and filtering a view again by the selection
    that produced it changes nothing. *)
Theorem filters_commute (df_full : DataFrame) (sel1 sel2 : Selection) :
  filtered_view (filtered_view df_full sel1) sel2
    = filtered_view (filtered_view df_full sel2) sel1 /\
  filtered_view (filtered_view df_full sel1) sel2
    = filter (fun r => row_passesb sel1 r && row_passesb sel2 r) df_full /\
  filtered_view (filtered_view df_full sel1) sel1 = filtered_view df_full sel1.
Proof.
  rewrite !filtered_view_filter, !filter_twice. split; [|split].
  - apply filter_ext_in_bool. intros r _. apply andb_comm.
  - reflexivity.
  - apply filter_ext_in_bool. intros r _. apply andb_diag.
Qed.

Lemma row_passes_wider (sel1 sel2 : Selection) (r : Row) :
  incl (regiones sel1) (regiones sel2) ->
  incl (categorias sel1) (categorias sel2) ->
  incl (subcats sel1) (subcats sel2) ->
  fleb (fst (discount_range sel2)) (fst (discount_range sel1)) = true ->
  fleb (snd (discount_range sel1)) (snd (discount_range sel2)) = true ->
  row_passes sel1 r -> row_passes sel2 r.
Proof.
  intros Hr Hc Hs Hlo Hhi [H1 [H2 [H3 [H4 H5]]]]. unfold row_passes.
  repeat split; auto.
  - now apply fleb_chain with (fst (discount_range sel1)).
  - now apply fleb_chain with (snd (discount_range sel1)).
Qed.

(** X4. Narrowing the filters never adds rows: when every list of a
    selection is included in that of another and its discount interval
    lies within the other's, its view is the other's view filtered once
    more, so it is taken from it in the same row order. *)
Theorem narrower_selection_gives_subview (df_full : DataFrame) (sel1 sel2 : Selection) :
  incl (regiones sel1) (regiones sel2) ->
  incl (categorias sel1) (categorias sel2) ->
  incl (subcats sel1) (subcats sel2) ->
  fleb (fst (discount_range sel2)) (fst (discount_range sel1)) = true ->
  fleb (snd (discount_range sel1)) (snd (discount_range sel2)) = true ->
  filtered_view df_full sel1 = filtered_view (filtered_view df_full sel2) sel1 /\
  subsequence (filtered_view df_full sel1) (filtered_view df_full sel2) /\
  (List.length (filtered_view df_full sel1)
     <= List.length (filtered_view df_full sel2))%nat.
Proof.
  intros Hr Hc Hs Hlo Hhi.
  assert (E : filtered_view df_full sel1
              = filtered_view (filtered_view df_full sel2) sel1).
  { rewrite !filtered_view_filter, filter_twice. apply filter_ext_in_bool.
    intros r _. destruct (row_passesb sel1 r) eqn:E1; [|now rewrite andb_false_r].
    apply row_passesb_spec in E1.
    apply (row_passes_wider sel1 sel2 r Hr Hc Hs Hlo Hhi) in E1.
    apply row_passesb_spec in E1. now rewrite E1. }
  split; [exact E|]. split.
  - rewrite E at 1. rewrite (filtered_view_filter (filtered_view df_full sel2)).
    apply filter_subsequence.
  - rewrite E at 1. rewrite (filtered_view_filter (filtered_view df_full sel2)).
    apply filter_length_le.
Qed.

Lemma narrower_selection_gives_subview_witness :
  filtered_view two_rows low_discounts
    = filtered_view (filtered_view two_rows all_discounts) low_discounts /\
  subsequence (filtered_view two_rows low_discounts)
    (filtered_view two_rows all_discounts) /\
  (List.length (filtered_view two_rows low_discounts)
     <= List.length (filtered_view two_rows all_discounts))%nat.
Proof.
  apply (narrower_selection_gives_subview two_rows low_discounts all_discounts);
    try apply incl_refl; reflexivity.
Defined.

(** ** The sidebar options (source lines 85-111) *)

Lemma insert_by_Permutation {A : Type} (leb : A -> A -> bool) (x : A) (l : list A) :
  Permutation (insert_by leb x l) (x :: l).
Proof.
  induction l as [|y l IH]; simpl; [apply Permutation_refl|].
  destruct (leb x y); [apply Permutation_refl|].
  apply perm_trans with (y :: x :: l); [now apply perm_skip | apply perm_swap].
Qed.

Lemma sort_by_Permutation {A : Type} (leb : A -> A -> bool) (l : list A) :
  Permutation (sort_by leb l) l.
Proof.
  unfold sort_by. induction l as [|x l IH]; simpl; [apply Permutation_refl|].
  apply perm_trans with (x :: fold_right (insert_by leb) [] l).
  - apply insert_by_Permutation.
  - now apply perm_skip.
Qed.

Lemma NoDup_dedup {A : Type} (eqb : A -> A -> bool) (l : list A) :
  (forall a, eqb a a = true) -> NoDup (dedup eqb l).
Proof.
  intros Hrefl. induction l as [|x l IH]; simpl; constructor.
  - intros Hin. apply filter_In in Hin. destruct Hin as [_ Hne].
    rewrite Hrefl in Hne. discriminate.
  - now apply NoDup_filter.
Qed.

Lemma NoDup_sort_by {A : Type} (leb : A -> A -> bool) (l : list A) :
  NoDup l -> NoDup (sort_by leb l).
Proof.
  intros H. apply (Permutation_NoDup (l := l)); [|exact H].
  apply Permutation_sym, sort_by_Permutation.
Qed.

Lemma ascii_compare_trans_le (a b c : ascii) :
  Ascii.compare a b <> Gt -> Ascii.compare b c <> Gt -> Ascii.compare a c <> Gt.
Proof.
  unfold Ascii.compare. rewrite !N.compare_le_iff. intros H1 H2.
  now apply N.le_trans with (N_of_ascii b).
Qed.

Lemma string_compare_refl (s : string) : String.compare s s = Eq.
Proof.
  induction s as [|a s IH]; simpl; [reflexivity|].
  unfold Ascii.compare. now rewrite N.compare_refl.
Qed.

Lemma string_compare_trans_le (s1 s2 s3 : string) :
  String.compare s1 s2 <> Gt -> String.compare s2 s3 <> Gt ->
  String.compare s1 s3 <> Gt.
Proof.
  revert s2 s3. induction s1 as [|a s1 IH]; intros [|b s2] [|c s3]; simpl;
    try congruence.
  unfold Ascii.compare.
  destruct (N.compare_spec (N_of_ascii a) (N_of_ascii b)) as [E1|L1|G1];
    destruct (N.compare_spec (N_of_ascii b) (N_of_ascii c)) as [E2|L2|G2];
    try congruence; intros H1 H2.
  - rewrite E1, E2, N.compare_refl. now apply IH with s2.
  - rewrite E1. now rewrite (proj2 (N.compare_lt_iff _ _) L2).
  - rewrite <- E2. now rewrite (proj2 (N.compare_lt_iff _ _) L1).
  - rewrite (proj2 (N.compare_lt_iff _ _) (N.lt_trans _ _ _ L1 L2)). discriminate.
Qed.

Lemma string_leb_trans (s1 s2 s3 : string) :
  String.leb s1 s2 = true -> String.leb s2 s3 = true -> String.leb s1 s3 = true.
Proof.
  unfold String.leb. intros H1 H2.
  pose proof (string_compare_trans_le s1 s2 s3) as H.
  destruct (String.compare s1 s2); destruct (String.compare s2 s3);
    destruct (String.compare s1 s3); try discriminate; try reflexivity;
    exfalso; apply H; congruence.
Qed.

Lemma sorted_unique_spec (l : list string) :
  NoDup (sorted (unique l)) /\
  StronglySorted (fun a b => String.leb a b = true) (sorted (unique l)) /\
  forall x, In x (sorted (unique l)) <-> In x l.
Proof.
  split; [|split].
  - apply NoDup_sort_by, NoDup_dedup, String.eqb_refl.
  - apply sort_by_sorted; [apply String.leb_total | apply string_leb_trans].
  - intros x. now rewrite In_sorted, In_unique.
Qed.

(** Two ascending duplicate-free lists with the same members are the same
    list. *)
Lemma sorted_lists_equal (l1 l2 : list string) :
  StronglySorted (fun a b => String.leb a b = true) l1 ->
  StronglySorted (fun a b => String.leb a b = true) l2 ->
  NoDup l1 -> NoDup l2 ->
  (forall x, In x l1 <-> In x l2) -> l1 = l2.
Proof.
  intros S1. revert l2. induction S1 as [|x l1 S1 IH Hx]; intros l2 S2 N1 N2 Hin.
  - destruct l2 as [|y l2]; [reflexivity|].
    exfalso. apply (proj2 (Hin y)). now left.
  - destruct S2 as [|y l2 S2 Hy].
    + exfalso. apply (proj1 (Hin x)). now left.
    + rewrite Forall_forall in Hx, Hy.
      inversion N1 as [|? ? Hx1 N1']; inversion N2 as [|? ? Hy2 N2']; subst.
      assert (Exy : x = y).
      { destruct (proj1 (Hin x) (or_introl eq_refl)) as [->|Hxl2]; [reflexivity|].
        destruct (proj2 (Hin y) (or_introl eq_refl)) as [->|Hyl1]; [reflexivity|].
        apply String.leb_antisym; [now apply Hx | now apply Hy]. }
      subst y. f_equal. apply IH; trivial.
      intros z. split; intros Hz.
      * destruct (proj1 (Hin z) (or_intror Hz)) as [->|H]; [contradiction | exact H].
      * destruct (proj2 (Hin z) (or_intror Hz)) as [->|H]; [contradiction | exact H].
Qed.

(** X5. The options of a multiselect are the distinct values of the
    column, each exactly once, in ascending order; they depend on which
    values occur and not on the order or the number of the rows. *)
Theorem multiselect_options_spec (col col' : list string) :
  NoDup (sorted (unique col)) /\
  StronglySorted (fun a b => String.leb a b = true) (sorted (unique col)) /\
  (forall x, In x (sorted (unique col)) <-> In x col) /\
  ((forall x, In x col <-> In x col') ->
   sorted (unique col) = sorted (unique col')).
Proof.
  destruct (sorted_unique_spec col) as [N1 [S1 I1]].
  destruct (sorted_unique_spec col') as [N2 [S2 I2]].
  repeat split; trivial; try apply I1.
  intros H. apply sorted_lists_equal; trivial.
  intros x. rewrite I1, I2. apply H.
Qed.

Lemma multiselect_options_spec_witness :
  sorted (unique ["West"; "East"; "West"]) = sorted (unique ["East"; "West"]).
Proof.
  apply (proj2 (proj2 (proj2
           (multiselect_options_spec ["West"; "East"; "West"] ["East"; "West"])))).
  intros x. simpl. tauto.
Defined.

(** X6. On a dataset that is not empty and whose discounts are numbers,
    the bounds handed to the slider are discounts of the dataset, the
    lower one at most the upper one, and every discount lies between
    them. *)
Theorem slider_bounds_spec (df_full : DataFrame) :
  df_full <> [] -> no_nan (map Discount df_full) ->
  let dmin := fst (discount_range (default_selection df_full)) in
  let dmax := snd (discount_range (default_selection df_full)) in
  In dmin (map Discount df_full) /\ In dmax (map Discount df_full) /\
  fleb dmin dmax = true /\
  forall r, In r df_full ->
            fleb dmin (Discount r) = true /\ fleb (Discount r) dmax = true.
Proof.
  intros Hne Hnan. simpl.
  assert (Hc : map Discount df_full <> [])
    by (destruct df_full; [congruence | discriminate]).
  destruct (col_min_spec _ Hc Hnan) as [Hmin_in [_ Hmin]].
  destruct (col_max_spec _ Hc Hnan) as [Hmax_in [_ Hmax]].
  repeat split; trivial.
  - now apply Hmin.
  - apply Hmin. now apply in_map.
  - apply Hmax. now apply in_map.
Qed.

Lemma slider_bounds_spec_witness :
  In f_tenth (map Discount two_rows) /\ In f_half (map Discount two_rows) /\
  fleb f_tenth f_half = true /\
  forall r, In r two_rows ->
            fleb f_tenth (Discount r) = true /\ fleb (Discount r) f_half = true.
Proof.
  apply (slider_bounds_spec two_rows).
  - discriminate.
  - repeat constructor.
Defined.

(** ** A render pass on a non-empty view (source lines 123-166) *)







(** ** The colour range (source lines 147-149 and the charts' [range_color]) *)

Lemma fkey_fopp (x : float) : is_nan x = false -> fkey (fopp x) = kopp (fkey x).
Proof.
  destruct x as [[]|[]| |[] m e]; simpl; intros; try discriminate;
    rewrite ?Z.opp_involutive; reflexivity.
Qed.

Lemma is_nan_fopp (x : float) : is_nan (fopp x) = is_nan x.
Proof. now destruct x. Qed.

Lemma fkey_zero_class (x : float) :
  fst (fst (fkey x)) = 0 -> fkey x = (0, 0, 0).
Proof. destruct x as [[]|[]| |[] m e]; simpl; intros; try discriminate; reflexivity. Qed.

Lemma kabs_interval (p m : Z * Z * Z) :
  (fst (fst p) = 0 -> p = (0, 0, 0)) ->
  key_le (kabs p) m -> key_le (kopp m) p /\ key_le p m.
Proof.
  destruct p as [[a1 b1] c1], m as [[a2 b2] c2]; unfold kabs, kopp; simpl.
  intros Hz. destruct (Z.ltb_spec a1 0); simpl; [lia|].
  destruct (Z.eq_dec a1 0) as [E|E]; [|lia].
  specialize (Hz E). injection Hz as -> -> ->. lia.
Qed.

Lemma fabs_interval (p m : float) :
  is_nan p = false -> is_nan m = false ->
  fleb (fabs p) m = true -> fleb (fopp m) p = true /\ fleb p m = true.
Proof.
  intros Hp Hm H.
  apply fleb_key in H; [|now rewrite is_nan_fabs | assumption].
  rewrite fkey_fabs in H by assumption.
  destruct (kabs_interval _ _ (fkey_zero_class p) H) as [H1 H2]. split.
  - apply fleb_key; [now rewrite is_nan_fopp | assumption |].
    now rewrite fkey_fopp.
  - now apply fleb_key.
Qed.

Lemma fabs_positive (x : float) :
  is_nan x = false -> feqb (fabs x) f_zero = false -> fltb f_zero (fabs x) = true.
Proof. destruct x as [[]|[]| |[] m e]; simpl; intros; try discriminate; reflexivity. Qed.

Lemma positive_range (m : float) :
  fltb f_zero m = true -> fltb (fopp m) m = true.
Proof. destruct m as [[]|[]| |[] mm e]; simpl; intros; try discriminate; reflexivity. Qed.

Lemma all_zero_or_not (c : list float) :
  Forall (fun p => feqb p f_zero = true) c \/
  Exists (fun p => feqb p f_zero = false) c.
Proof.
  induction c as [|p c [IH|IH]].
  - left. constructor.
  - destruct (feqb p f_zero) eqn:E; [left; now constructor | right; now left].
  - right. now right.
Qed.

Lemma max_abs_positive (df : DataFrame) :
  df <> [] -> no_nan (map Profit df) ->
  is_nan (max_abs df) = false /\ fltb f_zero (max_abs df) = true.
Proof.
  intros Hne Hnan. destruct (all_zero_or_not (map Profit df)) as [Hz|Hnz].
  - rewrite (max_abs_all_zero df Hne Hnan Hz). split; reflexivity.
  - destruct (max_abs_some_nonzero df Hne Hnan Hnz) as [H0 [p [Hp E]]].
    assert (Hpn : is_nan p = false).
    { unfold no_nan in Hnan. rewrite Forall_forall in Hnan. now apply Hnan. }
    rewrite E in *. split; [now rewrite is_nan_fabs | now apply fabs_positive].
Qed.

(** X9. On a non-empty view whose profits are numbers the colour range
    [(-max_abs, max_abs)] is a proper interval around 0: max_abs is a
    number above 0, its opposite lies strictly below it, and the profit of
    every row of the view lies within the range. *)
Theorem range_color_spec (df : DataFrame) :
  df <> [] -> no_nan (map Profit df) ->
  is_nan (max_abs df) = false /\
  fltb f_zero (max_abs df) = true /\
  fltb (fst (range_color df)) (snd (range_color df)) = true /\
  forall r, In r df ->
    fleb (fst (range_color df)) (Profit r) = true /\
    fleb (Profit r) (snd (range_color df)) = true.
Proof.
  intros Hne Hnan. destruct (max_abs_positive df Hne Hnan) as [Hn Hpos].
  split; [exact Hn|]. split; [exact Hpos|]. split.
  - now apply positive_range.
  - intros r Hr. unfold range_color. simpl. apply fabs_interval; trivial.
    + unfold no_nan in Hnan. rewrite Forall_forall in Hnan. apply Hnan.
      now apply in_map.
    + apply max_abs_dominates; trivial. now apply in_map.
Qed.

Lemma range_color_spec_witness :
  is_nan (max_abs two_rows) = false /\
  fltb f_zero (max_abs two_rows) = true /\
  fltb (fst (range_color two_rows)) (snd (range_color two_rows)) = true /\
  forall r, In r two_rows ->
    fleb (fst (range_color two_rows)) (Profit r) = true /\
    fleb (Profit r) (snd (range_color two_rows)) = true.
Proof.
  apply (range_color_spec two_rows).
  - discriminate.
  - repeat constructor.
Defined.

(** ** Grouped sums (source lines 152-158, 187-191, 214-218, 341-344) *)







Lemma na_last_geb_key (a b : float) :
  na_last_geb a b = true <-> key_le (dkey b) (dkey a).
Proof.
  unfold na_last_geb, dkey. destruct (is_nan b) eqn:Eb.
  - split; [|reflexivity]. intros _.
    destruct a as [[]|[]| |[] m e]; simpl; lia.
  - destruct (is_nan a) eqn:Ea.
    + split; [discriminate|].
      destruct b as [[]|[]| |[] m e]; simpl in *; try discriminate; lia.
    + now apply fleb_key.
Qed.

Lemma na_last_geb_total (a b : float) :
  na_last_geb a b = true \/ na_last_geb b a = true.
Proof.
  rewrite !na_last_geb_key.
  destruct (dkey a) as [[a1 b1] c1], (dkey b) as [[a2 b2] c2]; simpl; lia.
Qed.

Lemma na_last_geb_trans (a b c : float) :
  na_last_geb a b = true -> na_last_geb b c = true -> na_last_geb a c = true.
Proof.
  rewrite !na_last_geb_key. intros H1 H2. now apply key_le_trans with (dkey b).
Qed.

Lemma Permutation_In_iff {A : Type} (l l' : list A) (x : A) :
  Permutation l l' -> (In x l <-> In x l').
Proof.
  intros H. split; apply Permutation_in; [exact H | now apply Permutation_sym].
Qed.

Lemma map_fst_keyed {K V : Type} (F : K -> V) (keys : list K) :
  map fst (map (fun k => (k, F k)) keys) = keys.
Proof. rewrite map_map. apply map_id. Qed.

(** X11. The bars of tab 1 come in descending order, the category with
    the highest sales (the highest profit in the second chart) first and
    sums that are not numbers last; each category of the view has exactly
    one bar. *)
Theorem bars_sorted_descending (df : DataFrame) :
  StronglySorted (fun a b => na_last_geb (fst (snd a)) (fst (snd b)) = true)
    (sales_cat df) /\
  StronglySorted (fun a b => na_last_geb (snd a) (snd b) = true) (profit_cat df) /\
  Permutation (profit_cat df) (groupby_sum Category df) /\
  (forall c, In c (map fst (sales_cat df)) <-> In c (map Category df)) /\
  (forall c, In c (map fst (profit_cat df)) <-> In c (map Category df)) /\
  NoDup (map fst (sales_cat df)) /\ NoDup (map fst (profit_cat df)).
Proof.
  assert (Hk : NoDup (sorted (unique (map Category df))))
    by apply sorted_unique_spec.
  split; [|split; [|split; [|split; [|split; [|split]]]]].
  - apply sort_by_sorted.
    + intros a b. apply na_last_geb_total.
    + intros a b c. apply na_last_geb_trans.
  - apply sort_by_sorted.
    + intros a b. apply na_last_geb_total.
    + intros a b c. apply na_last_geb_trans.
  - apply sort_by_Permutation.
  - intros c. unfold sales_cat.
    rewrite (Permutation_In_iff _ _ c (Permutation_map fst (sort_by_Permutation _ _))).
    rewrite (map_fst_keyed
               (fun k => (col_sum (map Sales (filter (fun r => String.eqb (Category r) k) df)),
                          col_sum (map Profit (filter (fun r => String.eqb (Category r) k) df))))).
    now rewrite In_sorted, In_unique.
  - intros c. unfold profit_cat, groupby_sum.
    rewrite (Permutation_In_iff _ _ c (Permutation_map fst (sort_by_Permutation _ _))).
    rewrite (map_fst_keyed
               (fun k => col_sum (map Profit (filter (fun r => String.eqb (Category r) k) df)))).
    now rewrite In_sorted, In_unique.
  - unfold sales_cat.
    apply (Permutation_NoDup
             (Permutation_sym (Permutation_map fst (sort_by_Permutation _ _)))).
    now rewrite (map_fst_keyed
               (fun k => (col_sum (map Sales (filter (fun r => String.eqb (Category r) k) df)),
                          col_sum (map Profit (filter (fun r => String.eqb (Category r) k) df))))).
  - unfold profit_cat, groupby_sum.
    apply (Permutation_NoDup
             (Permutation_sym (Permutation_map fst (sort_by_Permutation _ _)))).
    now rewrite (map_fst_keyed
               (fun k => col_sum (map Profit (filter (fun r => String.eqb (Category r) k) df)))).
Qed.




(** ** The pivot on any view (source lines 367-383) *)

Lemma index_of_In (name : string) (cols : list string) :
  In name cols -> exists i, index_of name cols = Some i.
Proof.
  induction cols as [|c cols IH]; simpl; [contradiction|]. intros H.
  destruct (String.eqb_spec c name) as [->|Hne]; [now exists O|].
  destruct IH as [i ->]; [destruct H; [contradiction | assumption]|].
  now exists (S i).
Qed.

Lemma index_of_lt (name : string) (cols : list string) (i : nat) :
  index_of name cols = Some i -> (i < List.length cols)%nat.
Proof.
  revert i. induction cols as [|c cols IH]; simpl; intros i; [discriminate|].
  destruct (String.eqb c name); [intros [= <-]; lia|].
  destruct (index_of name cols) as [j|]; [|discriminate].
  intros [= <-]. specialize (IH j eq_refl). lia.
Qed.

Lemma remove_nth_index_of (name : string) (cols : list string) (i : nat) :
  NoDup cols -> index_of name cols = Some i ->
  remove_nth i cols = filter (fun c => negb (String.eqb c name)) cols.
Proof.
  revert i. induction cols as [|c cols IH]; simpl; intros i Hnd; [discriminate|].
  inversion Hnd as [|? ? Hnotin Hnd']; subst.
  destruct (String.eqb_spec c name) as [->|Hne]; simpl.
  - intros [= <-]. symmetry. apply filter_all_true. intros x Hx.
    apply negb_true_iff, String.eqb_neq. intros ->. contradiction.
  - destruct (index_of name cols) as [j|]; [|discriminate].
    intros [= <-]. cbn [remove_nth]. f_equal. now apply IH.
Qed.

Lemma remove_nth_map {A B : Type} (g : A -> B) (i : nat) (l : list A) :
  remove_nth i (map g l) = map g (remove_nth i l).
Proof.
  revert i. induction l as [|x l IH]; intros [|i]; simpl; try reflexivity.
  now rewrite IH.
Qed.

Lemma nth_replace_nth {A : Type} (i : nat) (v d : A) (l : list A) :
  (i < List.length l)%nat -> nth i (replace_nth i v l) d = v.
Proof.
  revert i. induction l as [|x l IH]; intros [|i]; simpl; intros H; try lia.
  - reflexivity.
  - apply IH. lia.
Qed.

Lemma remove_replace_nth {A : Type} (i : nat) (v : A) (l : list A) :
  remove_nth i (replace_nth i v l) = remove_nth i l.
Proof.
  revert i. induction l as [|x l IH]; intros [|i]; simpl; try reflexivity.
  now rewrite IH.
Qed.

Lemma NoDup_pivot_columns (df : DataFrame) : NoDup (pivot_columns df).
Proof. apply sorted_unique_spec. Qed.


Section PivotAny.
Variable df : DataFrame.

Let cols := pivot_columns df.
Let rows0 := map (fun st => (st, map (pivot_cell df st) cols)) (pivot_index df).

Lemma rows0_cells (r : string * list float) :
  In r rows0 -> snd r = map (pivot_cell df (fst r)) cols.
Proof.
  subst rows0. intros H. apply in_map_iff in H. destruct H as [st [<- _]].
  reflexivity.
Qed.

Section Collision.
Variable i : nat.
Hypothesis Hi : index_of "Total" cols = Some i.

Let rep (r : string * list float) : string * list float :=
  (fst r, replace_nth i (row_total r) (snd r)).

Lemma collision_width (r : string * list float) :
  In r rows0 -> (i < List.length (snd r))%nat.
Proof.
  intros H. rewrite (rows0_cells r H), length_map. now apply index_of_lt with "Total".
Qed.

Lemma collision_with_totals :
  set_column "Total" (row_sums (mkTable cols rows0)) (mkTable cols rows0)
  = mkTable cols (map rep rows0).
Proof.
  unfold set_column, row_sums. cbn [columns rows]. rewrite Hi. f_equal.
  apply (combine_map_self
           (fun p => (fst (fst p), replace_nth i (snd p) (snd (fst p))))
           (fun r => col_sum (snd r))).
Qed.

Lemma collision_sorted :
  sort_values "Total" (mkTable cols (map rep rows0))
  = Some (mkTable cols (map rep (sort_by total_leb rows0))).
Proof.
  unfold sort_values. cbn [columns rows]. rewrite Hi. f_equal. f_equal.
  rewrite sort_by_map. f_equal. apply sort_by_ext_in.
  intros a b Ha Hb. unfold cell_at, rep, total_leb. cbn [snd].
  rewrite !nth_replace_nth by now apply collision_width. reflexivity.
Qed.

Lemma collision_dropped :
  drop_column "Total" (mkTable cols (map rep (sort_by total_leb rows0)))
  = Some (mkTable (pivot_kept_columns df)
            (map (trim_row df) (sort_by total_leb rows0))).
Proof.
  unfold drop_column. cbn [columns rows]. rewrite Hi. f_equal.
  unfold pivot_kept_columns, not_Total. fold cols.
  rewrite <- (remove_nth_index_of "Total" cols i (NoDup_pivot_columns df) Hi).
  f_equal. rewrite map_map. apply map_ext_in. intros a Ha.
  apply In_sort_by in Ha. unfold rep, trim_row, pivot_kept_columns, not_Total.
  cbn [fst snd]. fold cols.
  rewrite <- (remove_nth_index_of "Total" cols i (NoDup_pivot_columns df) Hi).
  now rewrite remove_replace_nth, (rows0_cells a Ha), remove_nth_map.
Qed.
End Collision.

Lemma trim_row_without_Total (r : string * list float) :
  ~ In "Total" (map Region df) -> In r rows0 -> trim_row df r = r.
Proof.
  intros Hno Hr. unfold trim_row, pivot_kept_columns.
  rewrite filter_all_true.
  - fold cols. rewrite <- (rows0_cells r Hr). now destruct r.
  - intros c Hc. apply negb_true_iff, String.eqb_neq. intros ->.
    apply Hno. now apply pivot_columns_In.
Qed.

(** Whatever the view: the columns other than the helper's label, the
    rows in the order of their full totals, cut at 25. *)
Lemma pivot_any :
  pivot df = Some (mkTable (pivot_kept_columns df)
                     (map (trim_row df) (firstn MAX_STATES (all_pivot_rows df)))).
Proof.
  destruct (in_dec string_dec "Total" (map Region df)) as [Hin|Hno].
  - apply pivot_columns_In in Hin. destruct (index_of_In _ _ Hin) as [i Hi].
    fold cols in Hi. unfold pivot. rewrite unstack_filled. fold cols. fold rows0.
    rewrite (collision_with_totals i Hi), (collision_sorted i Hi),
      (collision_dropped i Hi).
    unfold all_pivot_rows. fold cols. fold rows0. unfold head. cbn [rows columns].
    rewrite length_map.
    destruct (Nat.ltb_spec MAX_STATES (List.length (sort_by total_leb rows0)))
      as [Hlt|Hge].
    + now rewrite firstn_map.
    + now rewrite firstn_all2.
  - rewrite (pivot_closed_form df Hno). f_equal. f_equal.
    + unfold pivot_kept_columns. symmetry. apply filter_all_true.
      intros c Hc. apply negb_true_iff, String.eqb_neq. intros ->.
      apply Hno. now apply pivot_columns_In.
    + etransitivity; [symmetry; apply map_id|]. apply map_ext_in.
      intros r Hr. symmetry. apply trim_row_without_Total; [exact Hno|].
      apply In_firstn in Hr. unfold all_pivot_rows in Hr.
      now apply In_sort_by in Hr.
Qed.
End PivotAny.










(** X15. The height of the heat map is 420 for up to 23 rows and 18 per
    row beyond that; since the pivot never has more than 25 rows it never
    exceeds 450. *)
Theorem heat_h_bounds (df : DataFrame) :
  exists t,
    pivot df = Some t /\
    420 <= heat_h t <= 450 /\
    ((List.length (rows t) <= 23)%nat -> heat_h t = 420) /\
    ((23 < List.length (rows t))%nat ->
     heat_h t = 18 * Z.of_nat (List.length (rows t))).
Proof.
  eexists. split; [apply pivot_any|]. unfold heat_h. cbn [rows].
  rewrite length_map.
  assert (Hle : (List.length (firstn MAX_STATES (all_pivot_rows df)) <= 25)%nat)
    by apply firstn_le_length.
  revert Hle. generalize (List.length (firstn MAX_STATES (all_pivot_rows df))).
  intros n Hle. split; [|split]; lia.
Qed.

Lemma heat_h_bounds_witness :
  exists t, pivot two_rows = Some t /\ heat_h t = 420.
Proof.
  destruct (heat_h_bounds two_rows) as [t [Ht [_ [Hsmall _]]]].
  exists t. split; [exact Ht|]. apply Hsmall.
  assert (E : pivot two_rows
              = Some (mkTable ["East"; "West"]
                        [("Utah", [f_zero; of_Z (-50)]); ("Ohio", [of_Z 20; f_zero])]))
    by (vm_compute; reflexivity).
  rewrite E in Ht. injection Ht as <-. simpl. lia.
Defined.

(** ** More on the loader (source lines 54-77) *)

Lemma fillna_spec (v : cell) (s : Series) (i : nat) (c : cell) :
  nth_error (values s) i = Some c ->
  nth_error (values (fillna v s)) i = Some (if is_missing c then v else c).
Proof. intros H. unfold fillna. simpl. now rewrite nth_error_map, H. Qed.

(** X16. In a table returned by the loader each of the columns Sales,
    Profit, Discount and Quantity that is present is the cleaned column
    read as numbers with 0 in place of what could not be read: it holds
    no missing value and no NaN. *)
Theorem loaded_numeric_columns_filled `{P : Pandas}
  (ruta_base : string) (home : tree) (nombre_archivo : string)
  (df : RawFrame) (col : string) :
  data_loader ruta_base home nombre_archivo = inr df ->
  In col numeric_columns -> has_column col df = true ->
  exists raw cleaned before after,
    file_under nombre_archivo (inr raw) home /\
    data_cleaning raw = inr cleaned /\
    getitem col cleaned = inr before /\
    getitem col df = inr after /\
    after = fillna (Flt f_zero) (to_numeric_coerce before) /\
    Forall (fun c => is_missing c = false) (values after) /\
    (forall i c, nth_error (values (to_numeric_coerce before)) i = Some c ->
                 nth_error (values after) i
                 = Some (if is_missing c then Flt f_zero else c)).
Proof.
  intros Hload Hin Hcol.
  destruct (data_loader_returns_normalized _ _ _ _ Hload)
    as [raw [cleaned [Hunder [Hcl [Hn Hl]]]]].
  assert (Hc : has_column col cleaned = true)
    by now rewrite <- (has_column_labels col cleaned df Hl).
  destruct (has_column_getitem col cleaned Hc) as [before Hb].
  pose proof (normalize_numeric_column cleaned df Hn col before Hin Hb) as Ha.
  exists raw, cleaned, before, (normalize_numeric before).
  repeat split; trivial.
  - apply normalize_numeric_no_missing.
  - intros i c Hi. now apply fillna_spec.
Qed.

Lemma loaded_numeric_columns_filled_witness :
  exists raw cleaned before after,
    file_under "superstore.csv" (inr raw) home_orders /\
    @data_cleaning pandas_example raw = inr cleaned /\
    getitem "Sales" cleaned = inr before /\
    getitem "Sales" loaded_orders = inr after /\
    after = fillna (Flt f_zero) (@to_numeric_coerce pandas_example before) /\
    Forall (fun c => is_missing c = false) (values after) /\
    (forall i c,
        nth_error (values (@to_numeric_coerce pandas_example before)) i = Some c ->
        nth_error (values after) i
        = Some (if is_missing c then Flt f_zero else c)).
Proof.
  apply (@loaded_numeric_columns_filled pandas_example "/home/u"
           home_orders "superstore.csv" loaded_orders "Sales").
  - vm_compute. reflexivity.
  - simpl. tauto.
  - reflexivity.
Defined.

Lemma normalize_order_date `{P : Pandas} (cleaned df : RawFrame) (s : Series) :
  normalize cleaned = inr df -> getitem "Order Date" cleaned = inr s ->
  getitem "Order Date" df = inr (to_datetime_coerce s).
Proof.
  intros Hn Hs. destruct (normalize_steps cleaned df Hn) as [s0 [df1 [H0 [H1 H2]]]].
  assert (s0 = s) by congruence. subst s0.
  assert (Hcat : ~ In "Order Date" categorical_columns)
    by (simpl; intuition discriminate).
  assert (Hnum : ~ In "Order Date" numeric_columns)
    by (simpl; intuition discriminate).
  rewrite (normalize_fold_other _ _ _ _ "Order Date" Hcat H2).
  rewrite (normalize_fold_other _ _ _ _ "Order Date" Hnum H1).
  apply getitem_setitem.
Qed.

Lemma normalize_other_column `{P : Pandas} (cleaned df : RawFrame) (col : string) :
  normalize cleaned = inr df ->
  col <> "Order Date" -> ~ In col numeric_columns -> ~ In col categorical_columns ->
  getitem col df = getitem col cleaned.
Proof.
  intros Hn Hod Hnum Hcat.
  destruct (normalize_steps cleaned df Hn) as [s0 [df1 [H0 [H1 H2]]]].
  rewrite (normalize_fold_other _ _ _ _ col Hcat H2).
  rewrite (normalize_fold_other _ _ _ _ col Hnum H1).
  now apply getitem_setitem_other.
Qed.

(** X17. The table the loader returns has the columns of the file it
    read, under the same labels and in the same order.  Its "Order Date"
    column is the cleaned one parsed again as dates with failures turned
    into the missing date; a column that is neither "Order Date" nor one
    of the numeric or categorical business columns is exactly as
    [data_cleaning] left it. *)
Theorem loader_keeps_columns `{P : Pandas}
  (ruta_base : string) (home : tree) (nombre_archivo : string) (df : RawFrame) :
  data_loader ruta_base home nombre_archivo = inr df ->
  exists raw cleaned,
    file_under nombre_archivo (inr raw) home /\
    data_cleaning raw = inr cleaned /\
    map fst df = map fst raw /\
    (exists s, getitem "Order Date" cleaned = inr s /\
               getitem "Order Date" df = inr (to_datetime_coerce s)) /\
    (forall col, col <> "Order Date" -> ~ In col numeric_columns ->
                 ~ In col categorical_columns ->
                 getitem col df = getitem col cleaned).
Proof.
  intros Hload.
  destruct (data_loader_returns_normalized _ _ _ _ Hload)
    as [raw [cleaned [Hunder [Hcl [Hn Hl]]]]].
  exists raw, cleaned. split; [exact Hunder|]. split; [exact Hcl|].
  destruct (data_cleaning_total raw) as [cleaned' [Hcl' Hl']].
  assert (cleaned' = cleaned) by congruence. subst cleaned'.
  split; [congruence|]. split.
  - assert (Hod : has_column "Order Date" df = true).
    { unfold data_loader in Hload. rewrite search_candidates in Hload.
      now apply first_accepted_has_order_date in Hload. }
    rewrite <- (has_column_labels "Order Date" df cleaned (eq_sym Hl)) in Hod.
    destruct (has_column_getitem _ _ Hod) as [s Hs].
    exists s. split; [exact Hs|]. now apply normalize_order_date with cleaned.
  - intros col Hod Hnum Hcat. now apply normalize_other_column.
Qed.

Lemma loader_keeps_columns_witness :
  exists raw cleaned,
    file_under "superstore.csv" (inr raw) home_orders /\
    @data_cleaning pandas_example raw = inr cleaned /\
    map fst loaded_orders = map fst raw /\
    (exists s, getitem "Order Date" cleaned = inr s /\
               getitem "Order Date" loaded_orders
               = inr (@to_datetime_coerce pandas_example s)) /\
    (forall col, col <> "Order Date" -> ~ In col numeric_columns ->
                 ~ In col categorical_columns ->
                 getitem col loaded_orders = getitem col cleaned).
Proof.
  apply (@loader_keeps_columns pandas_example "/home/u" home_orders "superstore.csv").
  vm_compute. reflexivity.
Defined.

Section LoaderErrors.
Context `{P : Pandas}.
Variables nombre_archivo ruta_base : string.

Lemma first_accepted_propagated (files : list File) (e : exn) :
  first_accepted nombre_archivo ruta_base files = inl (Propagated e) <->
  exists pre post, files = pre ++ inl e :: post /\ Forall passed_over pre.
Proof.
  split.
  - induction files as [|f files IH]; simpl; [discriminate|].
    destruct (file_cases f) as [[e' ->] | [Hp | [raw Ha]]].
    + simpl. intros [= <-]. exists [], files. split; [reflexivity | constructor].
    + rewrite (load_file_passed_over f Hp). intros H.
      destruct (IH H) as [pre [post [-> Hpre]]].
      exists (f :: pre), post. split; [reflexivity | now constructor].
    + destruct (load_file_accepted f raw Ha) as [cleaned [df' [_ [_ [-> _]]]]].
      discriminate.
  - intros [pre [post [-> Hpre]]].
    rewrite (first_accepted_skip nombre_archivo ruta_base pre _ Hpre).
    reflexivity.
Qed.

Lemma first_accepted_not_found_message (files : list File) (m : string) :
  first_accepted nombre_archivo ruta_base files = inl (NotFound m) ->
  m = not_found_message nombre_archivo ruta_base.
Proof.
  induction files as [|f files IH]; simpl; [now intros [= <-]|].
  destruct (load_file f) as [e|[df|]]; try discriminate. exact IH.
Qed.
End LoaderErrors.

(** X18. The loader raises an exception of pandas exactly when
    [read_csv] raises it on a file of the target name that the walk meets
    before any file it would accept: the search stops there and later
    files are not tried.  Cleaning and normalisation never raise, and the
    only other error is NotFound with the message naming the file and the
    root. *)
Theorem data_loader_errors `{P : Pandas}
  (ruta_base : string) (home : tree) (nombre_archivo : string) :
  (forall e,
      data_loader ruta_base home nombre_archivo = inl (Propagated e) <->
      exists pre post,
        candidates nombre_archivo (walk ruta_base home) = pre ++ inl e :: post /\
        Forall passed_over pre) /\
  (forall e, data_loader ruta_base home nombre_archivo = inl (Propagated e) ->
             file_under nombre_archivo (inl e) home) /\
  (forall m, data_loader ruta_base home nombre_archivo = inl (NotFound m) ->
             m = not_found_message nombre_archivo ruta_base).
Proof.
  unfold data_loader. rewrite search_candidates. split; [|split].
  - intros e. apply first_accepted_propagated.
  - intros e H. apply first_accepted_propagated in H.
    destruct H as [pre [post [Hc _]]].
    apply (candidates_file_under nombre_archivo (inl e) home ruta_base).
    rewrite Hc. apply in_or_app. right. now left.
  - intros m. apply first_accepted_not_found_message.
Qed.

Lemma data_loader_errors_witness :
  @data_loader pandas_example "/home/u" home_unreadable_first "superstore.csv"
    = inl (Propagated (Exn "ParserError" "Error tokenizing data")).
Proof.
  apply (proj1 (@data_loader_errors pandas_example "/home/u"
                  home_unreadable_first "superstore.csv")).
  exists [inr sales_only_csv], [inr orders_csv]. split; [reflexivity|].
  constructor; [|constructor]. exists sales_only_csv. split; reflexivity.
Defined.

(** ** Cleaning (source lines 31-50) *)

Lemma strip_currency_chars (s : string) :
  list_ascii_of_string (strip_currency s)
  = filter (fun a => negb (is_currency_mark a)) (list_ascii_of_string s).
Proof.
  induction s as [|a s IH]; simpl; [reflexivity|].
  destruct (is_currency_mark a); simpl; now rewrite IH.
Qed.

Lemma strip_currency_fixed (s : string) :
  (forall a, In a (list_ascii_of_string s) -> is_currency_mark a = false) ->
  strip_currency s = s.
Proof.
  induction s as [|a s IH]; simpl; [reflexivity|]. intros H.
  rewrite (H a (or_introl eq_refl)). f_equal. apply IH.
  intros b Hb. apply H. now right.
Qed.

(** X19. The text left by the replacement of [[$,]] holds no dollar sign
    and no comma, keeps every other character in order, and is the text
    itself when that held neither; so replacing twice is replacing once,
    and the replacement goes through concatenation. *)
Theorem strip_currency_spec (s t : string) :
  (forall a, In a (list_ascii_of_string (strip_currency s)) ->
             a <> "$"%char /\ a <> ","%char) /\
  (forall a, a <> "$"%char -> a <> ","%char ->
             count_occ ascii_dec (list_ascii_of_string (strip_currency s)) a
             = count_occ ascii_dec (list_ascii_of_string s) a) /\
  subsequence (list_ascii_of_string (strip_currency s)) (list_ascii_of_string s) /\
  strip_currency (strip_currency s) = strip_currency s /\
  strip_currency (s ++ t) = (strip_currency s ++ strip_currency t)%string.
Proof.
  assert (Hmark : forall a, In a (list_ascii_of_string (strip_currency s)) ->
                            is_currency_mark a = false).
  { intros a. rewrite strip_currency_chars, filter_In.
    intros [_ H]. now apply negb_true_iff in H. }
  split; [|split; [|split; [|split]]].
  - intros a Ha. apply Hmark in Ha. unfold is_currency_mark in Ha.
    apply orb_false_iff in Ha. destruct Ha as [H1 H2].
    apply Ascii.eqb_neq in H1, H2. now split.
  - intros a H1 H2. induction s as [|b s IH]; simpl; [reflexivity|].
    assert (Hs : forall a0, In a0 (list_ascii_of_string (strip_currency s)) ->
                            is_currency_mark a0 = false).
    { intros a0. rewrite strip_currency_chars, filter_In.
      intros [_ H]. now apply negb_true_iff in H. }
    destruct (is_currency_mark b) eqn:E; simpl.
    + destruct (ascii_dec b a) as [->|_]; [|now apply IH].
      unfold is_currency_mark in E. apply orb_true_iff in E.
      destruct E as [E|E]; apply Ascii.eqb_eq in E; contradiction.
    + destruct (ascii_dec b a); now rewrite IH.
  - clear Hmark. induction s as [|b s IH]; simpl; [constructor|].
    destruct (is_currency_mark b); simpl; now constructor.
  - now apply strip_currency_fixed.
  - clear Hmark. induction s as [|b s IH]; simpl; [reflexivity|].
    destruct (is_currency_mark b); simpl; now rewrite IH.
Qed.

(** *** [drop_duplicates] row by row *)

Lemma feqb_refl (x : float) : is_nan x = false -> feqb x x = true.
Proof. intros H. now apply feqb_key. Qed.

Lemma feqb_not_nan (x y : float) :
  feqb x y = true -> is_nan x = false /\ is_nan y = false.
Proof. unfold feqb, SFeqb, SFcompare. destruct x, y; simpl; try discriminate; auto. Qed.

Lemma cell_eqb_refl (c : cell) : cell_eqb c c = true.
Proof.
  destruct c as [ | |s|z|x|b|t]; simpl; trivial.
  - apply String.eqb_refl.
  - apply Z.eqb_refl.
  - destruct (is_nan x) eqn:E; [apply orb_true_r|]. now rewrite feqb_refl.
  - now destruct b.
  - apply Z.eqb_refl.
Qed.

Lemma cell_eqb_trans (a b c : cell) :
  cell_eqb a b = true -> cell_eqb b c = true -> cell_eqb a c = true.
Proof.
  destruct a, b; simpl; try discriminate; destruct c; simpl; try discriminate;
    trivial.
  - intros H1 H2. apply String.eqb_eq in H1, H2. apply String.eqb_eq. congruence.
  - intros H1 H2. apply Z.eqb_eq in H1, H2. apply Z.eqb_eq. congruence.
  - intros H1 H2. apply orb_true_iff in H1, H2. apply orb_true_iff.
    destruct H1 as [H1|H1], H2 as [H2|H2].
    + left. destruct (feqb_not_nan _ _ H1) as [Ha Hb].
      destruct (feqb_not_nan _ _ H2) as [_ Hc].
      apply feqb_key; trivial. apply feqb_key in H1, H2; trivial. congruence.
    + destruct (feqb_not_nan _ _ H1) as [_ Hb].
      apply andb_true_iff in H2. destruct H2 as [H2 _]. congruence.
    + destruct (feqb_not_nan _ _ H2) as [Hb _].
      apply andb_true_iff in H1. destruct H1 as [_ H1]. congruence.
    + right. apply andb_true_iff in H1, H2. apply andb_true_iff. tauto.
  - intros H1 H2. apply Bool.eqb_prop in H1, H2. subst. apply Bool.eqb_reflx.
  - intros H1 H2. apply Z.eqb_eq in H1, H2. apply Z.eqb_eq. congruence.
Qed.

Lemma row_eqb_refl (r : list cell) : row_eqb r r = true.
Proof. induction r; simpl; [reflexivity|]. now rewrite cell_eqb_refl. Qed.

Lemma row_eqb_trans (r1 r2 r3 : list cell) :
  row_eqb r1 r2 = true -> row_eqb r2 r3 = true -> row_eqb r1 r3 = true.
Proof.
  revert r2 r3. induction r1 as [|a r1 IH]; intros [|b r2] [|c r3]; simpl;
    try discriminate; trivial.
  intros H1 H2. apply andb_true_iff in H1, H2. apply andb_true_iff.
  destruct H1, H2. split; [now apply cell_eqb_trans with b | now apply IH with r2].
Qed.

Lemma keep_where_nth {A : Type} (f : nat -> bool) (l : list A) (d : A) (a : nat) :
  keep_where (map f (seq a (List.length l))) l
  = map (fun i => nth (i - a) l d) (filter f (seq a (List.length l))).
Proof.
  unfold keep_where. revert a. induction l as [|x l IH]; intros a; [reflexivity|].
  cbn [List.length seq map combine filter snd].
  assert (Hrest : map (fun i => nth (i - a) (x :: l) d) (filter f (seq (S a) (List.length l)))
                  = map (fun i => nth (i - S a) l d) (filter f (seq (S a) (List.length l)))).
  { apply map_ext_in. intros i Hi. apply filter_In in Hi. destruct Hi as [Hi _].
    apply in_seq in Hi. replace (i - a)%nat with (S (i - S a)) by lia. reflexivity. }
  destruct (f a); cbn [map fst]; rewrite IH, Hrest; [|reflexivity].
  now rewrite Nat.sub_diag.
Qed.

Lemma nrows_drop_duplicates (df : RawFrame) :
  rectangular df -> nrows (drop_duplicates df) = List.length (first_rows df).
Proof.
  intros Hrect. unfold first_rows. destruct df as [|[l s] df]; [reflexivity|].
  unfold drop_duplicates, duplicated. cbn [map nrows fst snd values].
  rewrite map_map.
  change (nrows ((l, s) :: df)) with (List.length (values s)).
  rewrite (keep_where_nth _ (values s) NA 0), length_map. reflexivity.
Qed.

Lemma row_at_drop_duplicates (df : RawFrame) (k : nat) :
  rectangular df -> (k < List.length (first_rows df))%nat ->
  row_at (drop_duplicates df) k = row_at df (nth k (first_rows df) O).
Proof.
  intros Hrect Hk. unfold row_at, drop_duplicates. rewrite map_map.
  apply map_ext_in. intros c Hc. cbn [snd values].
  unfold duplicated. rewrite map_map, <- (Hrect c Hc).
  rewrite (keep_where_nth _ (values (snd c)) NA 0).
  rewrite (Hrect c Hc). fold (first_rows df).
  rewrite (nth_indep _ NA (nth (O - 0) (values (snd c)) NA))
    by now rewrite length_map.
  rewrite (map_nth (fun i => nth (i - 0) (values (snd c)) NA) (first_rows df) O k).
  now rewrite Nat.sub_0_r.
Qed.

Lemma table_rows_drop_duplicates (df : RawFrame) :
  rectangular df ->
  table_rows (drop_duplicates df) = map (row_at df) (first_rows df).
Proof.
  intros Hrect. unfold table_rows. rewrite nrows_drop_duplicates by assumption.
  apply nth_ext with (d := []) (d' := []).
  - now rewrite !length_map, length_seq.
  - intros k Hk. rewrite length_map, length_seq in Hk.
    rewrite (nth_indep _ [] (row_at (drop_duplicates df) O))
      by now rewrite length_map, length_seq.
    rewrite (map_nth (row_at (drop_duplicates df)) _ O k), seq_nth by assumption.
    rewrite (nth_indep _ [] (row_at df O)) by now rewrite length_map.
    rewrite (map_nth (row_at df) _ O k). now apply row_at_drop_duplicates.
Qed.

Lemma filter_seq_pairs {A : Type} (R : A -> A -> Prop) (g : nat -> A)
  (p : nat -> bool) (a n : nat) :
  (forall i j, (i < j)%nat -> p j = true -> R (g i) (g j)) ->
  ForallOrdPairs R (map g (filter p (seq a n))).
Proof.
  intros H. revert a. induction n as [|n IH]; intros a; [constructor|].
  cbn [seq filter]. destruct (p a); [|apply IH]. cbn [map]. constructor; [|apply IH].
  apply Forall_forall. intros r Hr. apply in_map_iff in Hr.
  destruct Hr as [j [<- Hj]]. apply filter_In in Hj. destruct Hj as [Hj Hp].
  apply in_seq in Hj. apply H; [lia | assumption].
Qed.

Lemma filter_seq_subsequence {A : Type} (g : nat -> A) (p : nat -> bool) (a n : nat) :
  subsequence (map g (filter p (seq a n))) (map g (seq a n)).
Proof.
  revert a. induction n as [|n IH]; intros a; [constructor|].
  cbn [seq filter map]. destruct (p a); cbn [map]; constructor; apply IH.
Qed.

Lemma first_row_before (df : RawFrame) (i : nat) :
  (i < nrows df)%nat ->
  exists j, In j (first_rows df) /\ (j <= i)%nat /\
            row_eqb (row_at df j) (row_at df i) = true.
Proof.
  induction i as [i IH] using lt_wf_ind. intros Hi.
  destruct (existsb (fun j => row_eqb (row_at df j) (row_at df i)) (seq 0 i)) eqn:E.
  - apply existsb_exists in E. destruct E as [j [Hj Heq]]. apply in_seq in Hj.
    destruct (IH j ltac:(lia) ltac:(lia)) as [j' [Hin [Hle Heq']]].
    exists j'. split; [assumption|]. split; [lia|].
    now apply row_eqb_trans with (row_at df j).
  - exists i. split; [|split; [lia | apply row_eqb_refl]].
    unfold first_rows. apply filter_In. split; [apply in_seq; lia|]. now rewrite E.
Qed.

(** X20. [drop_duplicates] on a table whose columns have one length:
    the rows it keeps are rows of the table in their order, no two of
    them are equal, every row of the table is equal to a kept row that
    comes no later, and a table without two equal rows is returned as it
    is.  Two missing values count as equal here, and so do 0.0 and
    -0.0. *)
Theorem drop_duplicates_rows (df : RawFrame) :
  rectangular df ->
  subsequence (table_rows (drop_duplicates df)) (table_rows df) /\
  ForallOrdPairs (fun r1 r2 => row_eqb r1 r2 = false)
                 (table_rows (drop_duplicates df)) /\
  (forall i, (i < nrows df)%nat ->
     exists j, (j <= i)%nat /\ In (row_at df j) (table_rows (drop_duplicates df)) /\
               row_eqb (row_at df j) (row_at df i) = true) /\
  (ForallOrdPairs (fun r1 r2 => row_eqb r1 r2 = false) (table_rows df) ->
   drop_duplicates df = df).
Proof.
  intros Hrect. rewrite table_rows_drop_duplicates by assumption.
  split; [|split; [|split]].
  - apply filter_seq_subsequence.
  - apply filter_seq_pairs. intros i j Hij Hp. apply negb_true_iff in Hp.
    destruct (row_eqb (row_at df i) (row_at df j)) eqn:E; [|reflexivity].
    rewrite <- Hp. symmetry. apply existsb_exists. exists i.
    split; [apply in_seq; lia | assumption].
  - intros i Hi. destruct (first_row_before df i Hi) as [j [Hin [Hle Heq]]].
    exists j. split; [assumption|]. split; [now apply in_map | assumption].
  - intros Hdis.
    assert (Hall : forall i, In i (seq 0 (nrows df)) ->
              negb (existsb (fun j => row_eqb (row_at df j) (row_at df i)) (seq 0 i))
              = true).
    { unfold table_rows in Hdis. revert Hdis. generalize (nrows df). intros n Hdis i Hi.
      apply negb_true_iff. destruct (existsb _ _) eqn:E; [|reflexivity].
      apply existsb_exists in E. destruct E as [j [Hj Heq]].
      apply in_seq in Hi, Hj. exfalso.
      assert (Hgen : forall a m, ForallOrdPairs (fun r1 r2 => row_eqb r1 r2 = false)
                                  (map (row_at df) (seq a m)) ->
                     forall x y, (a <= x)%nat -> (x < y)%nat -> (y < a + m)%nat ->
                     row_eqb (row_at df x) (row_at df y) = false).
      { intros a m. revert a. induction m as [|m IHm]; intros a Hf x y Hax Hxy Hy; [lia|].
        cbn [seq map] in Hf. inversion Hf as [|r l Hhd Htl]; subst.
        destruct (Nat.eq_dec a x) as [->|Hne].
        - rewrite Forall_forall in Hhd. apply Hhd. apply in_map, in_seq. lia.
        - apply (IHm (S a)); trivial; lia. }
      rewrite (Hgen 0%nat n Hdis j i) in Heq; [discriminate | lia | lia | lia]. }
    unfold drop_duplicates.
    etransitivity; [|apply map_id]. apply map_ext_in. intros [l [dt vs]] Hc.
    cbn [fst snd dtype_of values]. f_equal. f_equal.
    unfold duplicated. rewrite map_map.
    pose proof (Hrect _ Hc) as Hlen. cbn [snd values] in Hlen. rewrite <- Hlen.
    rewrite (keep_where_nth _ vs NA 0), filter_all_true
      by (rewrite Hlen; exact Hall).
    apply nth_ext with (d := NA) (d' := NA).
    + now rewrite length_map, length_seq.
    + intros k Hk. rewrite length_map, length_seq in Hk.
      rewrite (nth_indep _ NA (nth (O - 0) vs NA))
        by now rewrite length_map, length_seq.
      rewrite (map_nth (fun i => nth (i - 0) vs NA) _ O k), seq_nth by assumption.
      f_equal. lia.
Qed.

Lemma drop_duplicates_rows_witness :
  subsequence (table_rows (drop_duplicates two_equal_rows))
              (table_rows two_equal_rows) /\
  ForallOrdPairs (fun r1 r2 => row_eqb r1 r2 = false)
                 (table_rows (drop_duplicates two_equal_rows)) /\
  (forall i, (i < nrows two_equal_rows)%nat ->
     exists j, (j <= i)%nat /\
               In (row_at two_equal_rows j)
                  (table_rows (drop_duplicates two_equal_rows)) /\
               row_eqb (row_at two_equal_rows j) (row_at two_equal_rows i) = true) /\
  (ForallOrdPairs (fun r1 r2 => row_eqb r1 r2 = false) (table_rows two_equal_rows) ->
   drop_duplicates two_equal_rows = two_equal_rows).
Proof.
  apply (drop_duplicates_rows two_equal_rows).
  intros c [<- | [<- | []]]; reflexivity.
Defined.
